(** * readwise-notion-sync: a shallow embedding of [src/sync.js]

    The script exports highlights from Readwise page by page, flattens
    them ([normalizeHighlights]) and, for each highlight that has a URL
    and at least one tag, creates a page in a Notion database or merges
    the tags into the page that already carries this URL
    ([upsertUrlWithTags]).

    Layout of the development:
    - [JsVal] and [Result]: the values of JavaScript, and exceptions
      as an error monad;
    - [Js]: the operators the script uses (truthiness, [||], [??],
      [?.], [typeof], [String], [trim], [for ... of]);
    - the Normalizer, as a function that may throw;
    - [Prog]: asynchronous calls as a free monad over the requests the
      script awaits, with an interpreter [run] that records the requests
      sent;
    - the Upserter, the Paginator and the Orchestrator, as programs;
    - [Notion] and [services]: Readwise as a script of export pages and
      the destination database held in memory;
    - the vocabulary in which the properties are stated;
    - the properties, component by component.

    Not modelled: the reading of the environment variables and the exit
    when one is missing, the console output, and time (a [sleep] is a
    request like another). *)

From Stdlib Require Import List String Ascii ZArith Bool Arith Lia.
From Stdlib Require Import DecimalString.
Import ListNotations.
Open Scope string_scope.
Open Scope list_scope.

(* ===================================================================== *)
(** ** JavaScript values *)
(* ===================================================================== *)

(** Values as [JSON.parse] produces them, plus [undefined] (the value of
    an absent property) and [NaN].  Numbers are restricted to integers:
    the script only tests numbers for truthiness, converts them to a
    string, or passes them along.  [JNum n] is the Number the literal
    [n] denotes, that is the double nearest to [n] (see
    [Js.to_double]).  Strings are sequences of 8-bit code units.  An
    object is the list of its own properties; the first binding of a
    key is the one that counts.  No value is a function: the
    properties of an object hold data only. *)
#[warnings="-register-all"]
Inductive JsVal : Type :=
| JUndefined
| JNull
| JBool (b : bool)
| JNum (n : Z)
| JNaN
| JStr (s : string)
| JArr (elems : list JsVal)
| JObj (fields : list (string * JsVal)).

(* ===================================================================== *)
(** ** Exceptions *)
(* ===================================================================== *)

(** What the script can throw: a [TypeError] of the language (a
    property read on [null] or [undefined], a call of something that is
    not a function, an iteration over something that is not iterable,
    a conversion to a string of an object that has nothing to convert
    it),
    or the rejection of an awaited request, with its payload. *)
Inductive Exn : Type :=
| TypeError
| Rejected (payload : JsVal).

Inductive Result (A : Type) : Type :=
| Ok (a : A)
| Err (e : Exn).
Arguments Ok {A} a.
Arguments Err {A} e.

Module ResultMonad.

Definition bind {A B} (r : Result A) (f : A -> Result B) : Result B :=
  match r with
  | Ok a => f a
  | Err e => Err e
  end.

Declare Scope result_scope.
Delimit Scope result_scope with result.
Notation "'let?' x ':=' r 'in' k" := (bind r (fun x => k))
  (at level 10, x name, r at level 100, k at level 200) : result_scope.

End ResultMonad.
Import ResultMonad.
Open Scope result_scope.

(* ===================================================================== *)
(** ** Operators *)
(* ===================================================================== *)

Module Js.

(** [Boolean(v)]: the falsy values are [undefined], [null], [false],
    [0], [NaN] and the empty string. *)
Definition Boolean (v : JsVal) : bool :=
  match v with
  | JUndefined | JNull | JNaN => false
  | JBool b => b
  | JNum n => negb (n =? 0)%Z
  | JStr s => negb (s =? "")
  | JArr _ | JObj _ => true
  end.

(** [a || b] *)
Definition or (a b : JsVal) : JsVal := if Boolean a then a else b.

Definition nullish (v : JsVal) : bool :=
  match v with JUndefined | JNull => true | _ => false end.

(** [a ?? b] *)
Definition coalesce (a b : JsVal) : JsVal := if nullish a then b else a.

(** [typeof v] *)
Definition typeof (v : JsVal) : string :=
  match v with
  | JUndefined => "undefined"
  | JBool _ => "boolean"
  | JNum _ | JNaN => "number"
  | JStr _ => "string"
  | JNull | JArr _ | JObj _ => "object"
  end.

(** [Array.isArray(v)] *)
Definition isArray (v : JsVal) : bool :=
  match v with JArr _ => true | _ => false end.

Fixpoint assoc (k : string) (fields : list (string * JsVal)) : option JsVal :=
  match fields with
  | [] => None
  | (k', v) :: rest => if k' =? k then Some v else assoc k rest
  end.

(** The value of property [k] of a value that is neither [null] nor
    [undefined].  Only data properties are modelled: the own properties
    of an object and the [length] of arrays and strings.  Every other
    lookup yields [undefined], which is what JavaScript answers for all
    the property names this script reads ([tags], [name], [title], ...),
    none of which is inherited from a prototype. *)
Definition member (v : JsVal) (k : string) : JsVal :=
  match v with
  | JObj fields => match assoc k fields with Some x => x | None => JUndefined end
  | JArr l => if k =? "length" then JNum (Z.of_nat (List.length l)) else JUndefined
  | JStr s => if k =? "length" then JNum (Z.of_nat (String.length s)) else JUndefined
  | _ => JUndefined
  end.

(** [v?.k] *)
Definition opt (v : JsVal) (k : string) : JsVal :=
  if nullish v then JUndefined else member v k.

(** *** Numbers as strings *)

Definition decimal (n : Z) : string := NilZero.string_of_int (Z.to_int n).

(** The double nearest to the integer [v >= 0], ties going to the even
    significand; [None] is [Infinity], which everything from
    [2^1024 - 2^970] on rounds to.  Below [2^53] every integer is a
    double. *)
Definition to_double (v : Z) : option Z :=
  if (v <? 2 ^ 53)%Z then Some v
  else
    let e := (Z.log2 v - 52)%Z in
    let q := Z.shiftr v e in
    let r := (v - Z.shiftl q e)%Z in
    let half := Z.shiftl 1 (e - 1) in
    let q' := if (half <? r)%Z || ((r =? half)%Z && Z.odd q) then (q + 1)%Z else q in
    if (971 <? e)%Z || ((e =? 971)%Z && (q' =? 2 ^ 53)%Z) then None
    else Some (Z.shiftl q' e).

(** [Number::toString] looks for integers [n], [k] and [s] with [s] of
    [k] digits, [s * 10^(n - k)] a number whose double is [x], and [k]
    as small as possible; of several such [s], the one nearest to [x],
    and of two equally near the even one.  A candidate is a pair
    [(s, n)]. *)
Definition scaled (k : Z) (c : Z * Z) : Z := (fst c * 10 ^ (snd c - k))%Z.

Definition candidates (x k : Z) : list (Z * Z) :=
  let d := Z.of_nat (String.length (decimal x)) in
  filter
    (fun c =>
       (10 ^ (k - 1) <=? fst c)%Z && (fst c <? 10 ^ k)%Z && (k <=? snd c)%Z
       && match to_double (scaled k c) with
          | Some y => (y =? x)%Z
          | None => false
          end)
    (flat_map (fun n => [ (x / 10 ^ (n - k), n); (x / 10 ^ (n - k) + 1, n) ]%Z)
       [d; (d + 1)%Z]).

Definition closest (x k : Z) (cs : list (Z * Z)) : option (Z * Z) :=
  fold_left
    (fun best c =>
       match best with
       | None => Some c
       | Some b =>
           let db := Z.abs (scaled k b - x) in
           let dc := Z.abs (scaled k c - x) in
           if (dc <? db)%Z || ((dc =? db)%Z && Z.even (fst c) && negb (Z.even (fst b)))
           then Some c else Some b
       end)
    cs None.

Fixpoint shortest (ks : list Z) (x : Z) : option (Z * (Z * Z)) :=
  match ks with
  | [] => None
  | k :: rest =>
      match closest x k (candidates x k) with
      | Some c => Some (k, c)
      | None => shortest rest x
      end
  end.

Fixpoint zeros (n : nat) : string :=
  match n with
  | O => ""
  | S m => String "0" (zeros m)
  end.

(** [String(n)] for a number that is an integer: the digits of [s]
    followed by [n - k] zeros when [n <= 21], and the exponent form
    otherwise ([1e+21], [1.1805916207174113e+21]).  Seventeen digits
    identify any double. *)
Definition Number_toString (n : Z) : string :=
  if (n =? 0)%Z then "0"
  else
    let sign := if (n <? 0)%Z then "-" else "" in
    match to_double (Z.abs n) with
    | None => sign ++ "Infinity"
    | Some x =>
        match shortest (map Z.of_nat (seq 1 17)) x with
        | None => sign ++ decimal x
        | Some (k, (s, n)) =>
            if (n <=? 21)%Z then sign ++ decimal s ++ zeros (Z.to_nat (n - k))
            else
              match decimal s with
              | String c EmptyString => sign ++ String c "e+" ++ decimal (n - 1)
              | String c rest => sign ++ String c ("." ++ rest) ++ "e+" ++ decimal (n - 1)
              | EmptyString => sign ++ decimal x
              end
        end
    end.

(** [String(v)].  An array is joined with commas, [null] and
    [undefined] elements printing as nothing.  An object is converted
    by its [toString]: a plain object inherits the one that answers
    [[object Object]]; an object with a property of its own called
    [toString] has there a value that cannot be called, and as
    [valueOf] gives back the object, the conversion throws a
    [TypeError]. *)
Fixpoint String_ (v : JsVal) : Result string :=
  match v with
  | JUndefined => Ok "undefined"
  | JNull => Ok "null"
  | JBool true => Ok "true"
  | JBool false => Ok "false"
  | JNum n => Ok (Number_toString n)
  | JNaN => Ok "NaN"
  | JStr s => Ok s
  | JArr l =>
      (fix join (l : list JsVal) : Result string :=
         match l with
         | [] => Ok ""
         | x :: r =>
             let? sx := match x with
                        | JUndefined | JNull => Ok ""
                        | _ => String_ x
                        end in
             match r with
             | [] => Ok sx
             | _ :: _ => let? sr := join r in Ok (sx ++ "," ++ sr)%string
             end
         end) l
  | JObj fields =>
      match assoc "toString" fields with
      | Some _ => Err TypeError
      | None => Ok "[object Object]"
      end
  end.

(** The values [String] converts without an exception. *)
Fixpoint printable (v : JsVal) : bool :=
  match v with
  | JArr l =>
      (fix all (l : list JsVal) : bool :=
         match l with
         | [] => true
         | x :: r => printable x && all r
         end) l
  | JObj fields =>
      match assoc "toString" fields with
      | Some _ => false
      | None => true
      end
  | _ => true
  end.

(** White space as [String.prototype.trim] sees it, among the code
    units below 256: tab, line feed, vertical tab, form feed, carriage
    return, space and no-break space. *)
Definition is_white_space (c : ascii) : bool :=
  let n := nat_of_ascii c in
  ((9 <=? n)%nat && (n <=? 13)%nat) || (n =? 32)%nat || (n =? 160)%nat.

Fixpoint trimStart (s : string) : string :=
  match s with
  | EmptyString => EmptyString
  | String c r => if is_white_space c then trimStart r else s
  end.

Fixpoint trimEnd (s : string) : string :=
  match s with
  | EmptyString => EmptyString
  | String c r =>
      match trimEnd r with
      | EmptyString => if is_white_space c then EmptyString else String c EmptyString
      | r' => String c r'
      end
  end.

(** [s.trim()] *)
Definition trim (s : string) : string := trimEnd (trimStart s).

Fixpoint chars (s : string) : list JsVal :=
  match s with
  | EmptyString => []
  | String c r => JStr (String c EmptyString) :: chars r
  end.

End Js.

(* ===================================================================== *)
(** ** Property reads and loops *)
(* ===================================================================== *)

(** [v.k]: throws on [null] and [undefined]. *)
Definition get (v : JsVal) (k : string) : Result JsVal :=
  if Js.nullish v then Err TypeError else Ok (Js.member v k).

(** The values a [for (const x of v)] loop visits: the elements of an
    array, the characters of a string; anything else is not iterable. *)
Definition iterate (v : JsVal) : Result (list JsVal) :=
  match v with
  | JArr l => Ok l
  | JStr s => Ok (Js.chars s)
  | _ => Err TypeError
  end.

(** [for (const x of xs) body], threading the variables the body
    assigns; an exception in the body leaves the loop. *)
Fixpoint for_of {A S : Type} (xs : list A) (body : S -> A -> Result S) (s : S)
  : Result S :=
  match xs with
  | [] => Ok s
  | x :: rest => let? s' := body s x in for_of rest body s'
  end.

(** [v.trim()] for a value that is not known to be a string: a value
    without a [trim] method cannot be called. *)
Definition call_trim (v : JsVal) : Result string :=
  match v with
  | JStr s => Ok (Js.trim s)
  | _ => Err TypeError
  end.

(* ===================================================================== *)
(** ** Normalizer *)
(* ===================================================================== *)

(** The object [normalizeHighlights] pushes.  [id] is a string because
    it is built with [String(...)], and every tag is a string because
    the mapping keeps a tag only behind a [typeof ... === 'string']
    test; the other fields hold whatever the export held. *)
Record NormalizedHighlight : Type := {
  id : string;
  text : JsVal;
  note : JsVal;
  location : JsVal;
  highlighted_at : JsVal;
  url : JsVal;
  tags : list string;
  book_title : JsVal;
  book_author : JsVal;
  source_url : JsVal;
  category : JsVal
}.

(** [(t) => typeof t === 'string' ? t : (typeof t?.name === 'string' ? t.name : '')] *)
Definition tag_name (t : JsVal) : string :=
  match t with
  | JStr s => s
  | _ => match Js.opt t "name" with
         | JStr s => s
         | _ => ""
         end
  end.

(** [.filter(Boolean)] on an array of strings. *)
Definition filter_Boolean (l : list string) : list string :=
  filter (fun s => Js.Boolean (JStr s)) l.

(** [Array.isArray(h.tags) ? h.tags : []] *)
Definition rawTags (h_tags : JsVal) : list JsVal :=
  match h_tags with
  | JArr l => l
  | _ => []
  end.

(** The body of the inner loop: one raw highlight [h] of a book whose
    four [meta] fields are given. *)
Definition push_highlight (m_title m_author m_source_url m_category : JsVal)
  (highlights : list NormalizedHighlight) (h : JsVal)
  : Result (list NormalizedHighlight) :=
  let? h_tags := get h "tags" in
  let tags := filter_Boolean (map tag_name (rawTags h_tags)) in
  let? h_id := get h "id" in
  let? id_string := Js.String_ h_id in
  let? h_text := get h "text" in
  let? h_note := get h "note" in
  let? h_location := get h "location" in
  let? h_highlighted_at := get h "highlighted_at" in
  let? h_created_at := get h "created_at" in
  let? h_url := get h "url" in
  Ok (highlights ++
      [ {| id := id_string;
           text := Js.or h_text (JStr "");
           note := Js.or h_note (JStr "");
           location := Js.coalesce h_location JNull;
           highlighted_at := Js.or (Js.or h_highlighted_at h_created_at) JNull;
           url := Js.or (Js.or h_url m_source_url) (JStr "");
           tags := tags;
           book_title := m_title;
           book_author := m_author;
           source_url := m_source_url;
           category := m_category |} ]).

(** The body of the outer loop: one book. *)
Definition push_book (highlights : list NormalizedHighlight) (book : JsVal)
  : Result (list NormalizedHighlight) :=
  let m_title := Js.or (Js.opt book "title") (JStr "") in
  let m_author := Js.or (Js.opt book "author") (JStr "") in
  let m_source_url := Js.or (Js.opt book "source_url") (JStr "") in
  let m_category := Js.or (Js.opt book "category") (JStr "") in
  let? hs := iterate (Js.or (Js.opt book "highlights") (JArr [])) in
  for_of hs (push_highlight m_title m_author m_source_url m_category) highlights.

Definition normalizeHighlights (results : JsVal) : Result (list NormalizedHighlight) :=
  let? books := iterate (Js.or results (JArr [])) in
  for_of books push_book [].

(* ===================================================================== *)
(** ** Requests and programs *)
(* ===================================================================== *)

(** The data the script exchanges with [axios] and with the Notion
    client. *)
Module Api.

(** [{ name }], an option of a multi-select property. *)
Record SelectOption : Type := { name : string }.

(** A property value, in the four shapes the script writes:
    - [title content] is [{ title: [{ type: 'text', text: { content } }] }],
    - [url u] is [{ url: u }],
    - [rich_text content] is [{ rich_text: [{ type: 'text', text: { content } }] }],
    - [multi_select options] is [{ multi_select: options }]. *)
Inductive PropertyValue : Type :=
| title (content : string)
| url (u : string)
| rich_text (content : JsVal)
| multi_select (options : list SelectOption).

(** The [properties] object of a create or update request.  A key
    bound to [None] is a key whose value is [undefined]: the client
    serialises the request as JSON, which leaves such a key out. *)
Definition Properties : Type := list (string * option PropertyValue).

(** A page as the database answers it; [properties] is absent from a
    partial page object. *)
Record Page : Type := {
  id : string;
  properties : option (list (string * PropertyValue))
}.

(** The answer of [notion.databases.query]. *)
Record QueryResponse : Type := { results : option (list Page) }.

(** The answer of [axios.get]. *)
Record AxiosResponse : Type := { data : JsVal }.

(** The asynchronous calls of the script, indexed by the type of what
    they resolve to.
    - [axios_get url headers params timeout] is
      [axios.get(url, { headers, params, timeout })];
    - [databases_query database_id page_size property equals] is
      [notion.databases.query({ database_id, page_size,
         filter: { property, url: { equals } } })];
    - [pages_update page_id properties] is
      [notion.pages.update({ page_id, properties })];
    - [pages_create database_id properties] is
      [notion.pages.create({ parent: { database_id }, properties })];
    - [sleep ms] is the promise of [setTimeout(resolve, ms)]. *)
Inductive Request : Type -> Type :=
| axios_get (url : string) (headers : list (string * string))
    (params : list (string * JsVal)) (timeout : Z) : Request AxiosResponse
| databases_query (database_id : string) (page_size : Z)
    (property : string) (equals : string) : Request QueryResponse
| pages_update (page_id : string) (properties : Properties) : Request JsVal
| pages_create (database_id : string) (properties : Properties) : Request JsVal
| sleep (ms : Z) : Request unit.

(** A request, whatever it resolves to. *)
Inductive Call : Type :=
| call {X : Type} (r : Request X).

End Api.

(** A program is a tree: it returns, throws, or awaits a request and
    goes on with what the request resolved to. *)
Inductive Prog (A : Type) : Type :=
| Ret (a : A)
| Throw (e : Exn)
| Await {X : Type} (r : Api.Request X) (k : X -> Prog A).
Arguments Ret {A} a.
Arguments Throw {A} e.
Arguments Await {A X} r k.

Module ProgMonad.

Fixpoint bind {A B} (p : Prog A) (f : A -> Prog B) : Prog B :=
  match p with
  | Ret a => f a
  | Throw e => Throw e
  | Await r k => Await r (fun x => bind (k x) f)
  end.

(** A computation that may throw, as a program that awaits nothing. *)
Definition lift {A} (r : Result A) : Prog A :=
  match r with
  | Ok a => Ret a
  | Err e => Throw e
  end.

(** [await r] *)
Definition await {X} (r : Api.Request X) : Prog X := Await r Ret.

Declare Scope prog_scope.
Delimit Scope prog_scope with prog.
Notation "'let!' x ':=' p 'in' k" := (bind p (fun x => k))
  (at level 10, x name, p at level 100, k at level 200) : prog_scope.

(** [for (const x of xs) body] with a body that awaits. *)
Fixpoint for_of_async {A S : Type} (xs : list A) (body : S -> A -> Prog S) (s : S)
  : Prog S :=
  match xs with
  | [] => Ret s
  | x :: rest => bind (body s x) (fun s' => for_of_async rest body s')
  end.

End ProgMonad.
Import ProgMonad.
Open Scope prog_scope.

(** The world outside the script answers each request, resolving it
    ([Ok]) or rejecting it ([Err]), and moves on. *)
Definition Env (W : Type) : Type :=
  forall X : Type, Api.Request X -> W -> Result X * W.

(** What a run leaves behind: how the program ended ([Ok] when it
    returned, [Err] when it threw), the world after it, and the requests
    it issued, oldest first. *)
Record Run (A W : Type) : Type := {
  outcome : Result A;
  world : W;
  trace : list Api.Call
}.
Arguments outcome {A W} _.
Arguments world {A W} _.
Arguments trace {A W} _.

Definition after_call {A W X} (r : Api.Request X) (rest : Run A W) : Run A W :=
  {| outcome := outcome rest; world := world rest;
     trace := Api.call r :: trace rest |}.

(** A rejected request is thrown at the [await]: the script catches
    nothing before [main().catch]. *)
Fixpoint run {A W} (env : Env W) (p : Prog A) (w : W) : Run A W :=
  match p with
  | Ret a => {| outcome := Ok a; world := w; trace := [] |}
  | Throw e => {| outcome := Err e; world := w; trace := [] |}
  | Await r k =>
      match env _ r w with
      | (Ok x, w') => after_call r (run env (k x) w')
      | (Err e, w') => {| outcome := Err e; world := w'; trace := [Api.call r] |}
      end
  end.

(* ===================================================================== *)
(** ** The script *)
(* ===================================================================== *)

(** The three environment variables the script reads when it starts
    (it exits before doing anything when one is missing). *)
Record Config : Type := {
  READWISE_TOKEN : string;
  NOTION_TOKEN : string;
  NOTION_DATABASE_ID : string
}.

(** [new Set(array)] and [Array.from(set)] on strings: a set remembers
    the order in which its elements were first added. *)
Module JsSet.

Definition has (x : string) (s : list string) : bool :=
  existsb (String.eqb x) s.

(** [s.add(x)] *)
Definition add (s : list string) (x : string) : list string :=
  if has x s then s else s ++ [x].

(** [new Set(l)] adds the elements of [l] from left to right. *)
Definition of_array (l : list string) : list string := fold_left add l [].

(** [Array.from(s)] *)
Definition to_array (s : list string) : list string := s.

End JsSet.

(** [l.some((x, i) => f(x, i))], from index [i] on. *)
Fixpoint some_from {A} (f : A -> nat -> bool) (l : list A) (i : nat) : bool :=
  match l with
  | [] => false
  | x :: rest => f x i || some_from f rest (S i)
  end.

(** [t !== a[i]]: past the end [a[i]] is [undefined], which no string
    equals. *)
Definition differs_at (a : list string) (t : string) (i : nat) : bool :=
  match nth_error a i with
  | Some t' => negb (t =? t')
  | None => true
  end.

(** [{ ...o, k: v }] *)
Fixpoint with_property (o : Api.Properties) (k : string) (v : option Api.PropertyValue)
  : Api.Properties :=
  match o with
  | [] => [(k, v)]
  | (k', v') :: rest =>
      if k' =? k then (k, v) :: rest else (k', v') :: with_property rest k v
  end.

(** [existing.properties?.Tags?.multi_select?.map((t) => t.name) || []] *)
Definition existingTags (existing : Api.Page) : list string :=
  match Api.properties existing with
  | Some props =>
      match find (fun kv => fst kv =? "Tags") props with
      | Some (_, Api.multi_select options) => map Api.name options
      | _ => []
      end
  | None => []
  end.

(** [Array.from(new Set([...existingTags, ...tags]))] *)
Definition merged (existingTags tags : list string) : list string :=
  JsSet.to_array (JsSet.of_array (existingTags ++ tags)).

(** [merged.length !== existingTags.length ||
     merged.some((t, i) => t !== existingTags[i])] *)
Definition needUpdate (merged existingTags : list string) : bool :=
  negb (List.length merged =? List.length existingTags)%nat
  || some_from (differs_at existingTags) merged 0.

(** [(list) => list.map((name) => ({ name }))] *)
Definition toMultiSelect (l : list string) : list Api.SelectOption :=
  map (fun name => {| Api.name := name |}) l.

(** [h.book_title?.trim() || url] *)
Definition titleText (h : NormalizedHighlight) (url : string) : Result string :=
  if Js.nullish (book_title h) then Ok url
  else
    let? t := call_trim (book_title h) in
    Ok (if Js.Boolean (JStr t) then t else url).

(** [c ? { rich_text: [{ type: 'text', text: { content: c } }] } : undefined] *)
Definition rich_text_or_undefined (c : JsVal) : option Api.PropertyValue :=
  if Js.Boolean c then Some (Api.rich_text c) else None.

Definition baseProperties (h : NormalizedHighlight) (url titleText : string)
  : Api.Properties :=
  [ ("Title", Some (Api.title titleText));
    ("URL", Some (Api.url url));
    ("Source", rich_text_or_undefined (category h));
    ("Book", rich_text_or_undefined (book_title h));
    ("Author", rich_text_or_undefined (book_author h)) ].

Section Script.

Variable cfg : Config.

(** Paginator.  [pageCursor] defaults to [null]. *)
Definition fetchReadwisePage (pageCursor : JsVal) : Prog JsVal :=
  let url := "https://readwise.io/api/v2/export/" in
  let params := [] in
  let params := if Js.Boolean pageCursor
                then params ++ [("pageCursor", pageCursor)] else params in
  let! resp := await (Api.axios_get url
                        [("Authorization", ("Token " ++ READWISE_TOKEN cfg)%string)]
                        params 30000) in
  Ret (Api.data resp).

(** Matcher.  [resp.results?.[0] || null]; a page object is truthy. *)
Definition findPageByUrl (url : string) : Prog (option Api.Page) :=
  let! resp := await (Api.databases_query (NOTION_DATABASE_ID cfg) 1 "URL" url) in
  Ret (match Api.results resp with
       | Some (page :: _) => Some page
       | _ => None
       end).

(** Upserter.  [h.tags] is an array by the type of [h], so that
    [Array.isArray(h.tags) ? h.tags.filter(Boolean) : []] is the
    filter. *)
Definition upsertUrlWithTags (h : NormalizedHighlight) : Prog bool :=
  let! url := lift (call_trim (Js.or (url h) (JStr ""))) in
  if negb (Js.Boolean (JStr url)) then Ret false else
  let tags := filter_Boolean (tags h) in
  if (List.length tags =? 0)%nat then Ret false else
  let! existing := findPageByUrl url in
  let! titleText := lift (titleText h url) in
  let baseProperties := baseProperties h url titleText in
  match existing with
  | Some existing =>
      let existingTags := existingTags existing in
      let merged := merged existingTags tags in
      let needUpdate := needUpdate merged existingTags in
      let! _ :=
        (if needUpdate
         then let! _ := await (Api.pages_update (Api.id existing)
                                 (with_property baseProperties "Tags"
                                    (Some (Api.multi_select (toMultiSelect merged))))) in
              Ret tt
         else Ret tt) in
      Ret false
  | None =>
      let! resp := await (Api.pages_create (NOTION_DATABASE_ID cfg)
                            (with_property baseProperties "Tags"
                               (Some (Api.multi_select (toMultiSelect tags))))) in
      Ret (Js.Boolean (Js.opt resp "id"))
  end.

(** Orchestrator: the variables of [main]. *)
Record Loop : Type := {
  cursor : JsVal;
  totalFetched : nat;
  totalCreated : nat
}.

(** The body of [for (const h of normalized)]. *)
Definition upsert_and_sleep (totalCreated : nat) (h : NormalizedHighlight) : Prog nat :=
  let! created := upsertUrlWithTags h in
  let totalCreated := if created then totalCreated + 1 else totalCreated in
  let! _ := await (Api.sleep 150) in
  Ret totalCreated.

(** The body of [while (true)]: [inr] when it reaches [break], [inl]
    with the variables for the next turn otherwise. *)
Definition main_body (st : Loop) : Prog (Loop + Loop) :=
  let! page := fetchReadwisePage (cursor st) in
  let! page_results := lift (get page "results") in
  let! normalized := lift (normalizeHighlights page_results) in
  let totalFetched := totalFetched st + List.length normalized in
  let! totalCreated := for_of_async normalized upsert_and_sleep (totalCreated st) in
  let! nextPageCursor := lift (get page "nextPageCursor") in
  if negb (Js.Boolean nextPageCursor)
  then Ret (inr {| cursor := cursor st; totalFetched := totalFetched;
                   totalCreated := totalCreated |})
  else Ret (inl {| cursor := nextPageCursor; totalFetched := totalFetched;
                   totalCreated := totalCreated |}).

(** [while (true)] unrolled [fuel] times: [None] when the loop has not
    reached [break] by then. *)
Fixpoint while_true (fuel : nat) (st : Loop) : Prog (option Loop) :=
  match fuel with
  | O => Ret None
  | S fuel' =>
      let! r := main_body st in
      match r with
      | inl st' => while_true fuel' st'
      | inr st' => Ret (Some st')
      end
  end.

(** [main], up to its two lines of console output: it returns the
    numbers the last line prints. *)
Definition main (fuel : nat) : Prog (option (nat * nat)) :=
  let! r := while_true fuel {| cursor := JNull; totalFetched := 0; totalCreated := 0 |} in
  Ret (match r with
       | Some st => Some (totalFetched st, totalCreated st)
       | None => None
       end).

End Script.

(* ===================================================================== *)
(** ** A model of the two services *)
(* ===================================================================== *)

(** The elements of [l] in the order they are first seen, each once. *)
Fixpoint first_occurrences (l : list string) : list string :=
  match l with
  | [] => []
  | x :: rest => x :: filter (fun y => negb (y =? x)) (first_occurrences rest)
  end.

(** The destination: a Notion database held in memory.  Pages are kept
    in the order they were created and a query answers them in that
    order.  A multi-select property holds a set of options: writing it
    keeps one occurrence of each name. *)
Module Notion.

Record Db : Type := {
  pages : list Api.Page;
  next_id : nat
}.

Definition lookup (k : string) (props : list (string * Api.PropertyValue))
  : option Api.PropertyValue :=
  match find (fun kv => fst kv =? k) props with
  | Some (_, v) => Some v
  | None => None
  end.

Fixpoint set (k : string) (v : Api.PropertyValue)
  (props : list (string * Api.PropertyValue)) : list (string * Api.PropertyValue) :=
  match props with
  | [] => [(k, v)]
  | (k', v') :: rest => if k' =? k then (k, v) :: rest else (k', v') :: set k v rest
  end.

Definition stored (v : Api.PropertyValue) : Api.PropertyValue :=
  match v with
  | Api.multi_select options =>
      Api.multi_select (toMultiSelect (first_occurrences (map Api.name options)))
  | _ => v
  end.

(** Writing the properties of a request into those of a page: a key
    whose value is [undefined] is not part of the request. *)
Fixpoint patch (props : list (string * Api.PropertyValue)) (request : Api.Properties)
  : list (string * Api.PropertyValue) :=
  match request with
  | [] => props
  | (k, Some v) :: rest => patch (set k (stored v) props) rest
  | (_, None) :: rest => patch props rest
  end.

Definition url_equals (property equals : string) (page : Api.Page) : bool :=
  match Api.properties page with
  | Some props =>
      match lookup property props with
      | Some (Api.url u) => u =? equals
      | _ => false
      end
  | None => false
  end.

Definition query (page_size : Z) (property equals : string) (db : Db)
  : Api.QueryResponse :=
  {| Api.results :=
       Some (firstn (Z.to_nat page_size) (filter (url_equals property equals) (pages db))) |}.

Definition page_object (page_id : string) : JsVal :=
  JObj [("object", JStr "page"); ("id", JStr page_id)].

Definition fresh_id (db : Db) : string :=
  ("page-" ++ NilZero.string_of_uint (Nat.to_uint (next_id db)))%string.

Definition create (request : Api.Properties) (db : Db) : JsVal * Db :=
  let page_id := fresh_id db in
  (page_object page_id,
   {| pages := pages db ++ [ {| Api.id := page_id;
                                Api.properties := Some (patch [] request) |} ];
      next_id := S (next_id db) |}).

Definition patch_page (request : Api.Properties) (page : Api.Page) : Api.Page :=
  {| Api.id := Api.id page;
     Api.properties :=
       Some (patch (match Api.properties page with Some props => props | None => [] end)
                   request) |}.

(** The first page with the given identifier is the one updated. *)
Fixpoint update_pages (page_id : string) (request : Api.Properties)
  (l : list Api.Page) : option (list Api.Page) :=
  match l with
  | [] => None
  | page :: rest =>
      if Api.id page =? page_id then Some (patch_page request page :: rest)
      else match update_pages page_id request rest with
           | Some rest' => Some (page :: rest')
           | None => None
           end
  end.

Definition update (page_id : string) (request : Api.Properties) (db : Db)
  : Result JsVal * Db :=
  match update_pages page_id request (pages db) with
  | Some pages' => (Ok (page_object page_id), {| pages := pages'; next_id := next_id db |})
  | None => (Err (Rejected (JObj [("code", JStr "object_not_found")])), db)
  end.

End Notion.

(** The world of a run: the export pages Readwise has still to serve,
    in order, and the Notion database. *)
Record World : Type := {
  readwise : list JsVal;
  notion : Notion.Db
}.

(** Readwise serves its next page whatever the request says; once it
    has none left the request fails.  Sleeping changes nothing. *)
Definition services : Env World :=
  fun X r w =>
    match r in Api.Request X return Result X * World with
    | Api.axios_get _ _ _ _ =>
        match readwise w with
        | page :: rest =>
            (Ok {| Api.data := page |}, {| readwise := rest; notion := notion w |})
        | [] => (Err (Rejected (JStr "timeout of 30000ms exceeded")), w)
        end
    | Api.databases_query _ page_size property equals =>
        (Ok (Notion.query page_size property equals (notion w)), w)
    | Api.pages_update page_id request =>
        let (resp, db) := Notion.update page_id request (notion w) in
        (resp, {| readwise := readwise w; notion := db |})
    | Api.pages_create _ request =>
        let (resp, db) := Notion.create request (notion w) in
        (Ok resp, {| readwise := readwise w; notion := db |})
    | Api.sleep _ => (Ok tt, w)
    end.

(** *** The data of the end-to-end scenarios *)

Module Scenario.

Definition cfg : Config :=
  {| READWISE_TOKEN := "rw"; NOTION_TOKEN := "secret"; NOTION_DATABASE_ID := "db" |}.

Definition highlight (tags : list JsVal) : JsVal :=
  JObj [("id", JStr "1"); ("url", JStr "https://x.com"); ("tags", JArr tags)].

Definition book_a (tags : list JsVal) : JsVal :=
  JObj [("title", JStr "Book A"); ("highlights", JArr [highlight tags])].

Definition export_page (books : list JsVal) (next : JsVal) : JsVal :=
  JObj [("results", JArr books); ("nextPageCursor", next)].

Definition empty_db : Notion.Db := {| Notion.pages := []; Notion.next_id := 0 |}.

Definition h1 (tags : list string) : NormalizedHighlight :=
  {| id := "1"; text := JStr ""; note := JStr ""; location := JNull;
     highlighted_at := JNull; url := JStr "https://x.com"; tags := tags;
     book_title := JStr "Book A"; book_author := JStr "";
     source_url := JStr ""; category := JStr "" |}.

Definition page_a (tags : list string) : Api.Page :=
  {| Api.id := "page-0";
     Api.properties :=
       Some [ ("Title", Api.title "Book A"); ("URL", Api.url "https://x.com");
              ("Book", Api.rich_text (JStr "Book A"));
              ("Tags", Api.multi_select (toMultiSelect tags)) ] |}.

Definition db_a (tags : list string) : Notion.Db :=
  {| Notion.pages := [page_a tags]; Notion.next_id := 1 |}.

Definition get_request (params : list (string * JsVal)) : Api.Call :=
  Api.call (Api.axios_get "https://readwise.io/api/v2/export/"
              [("Authorization", "Token rw")] params 30000).

Definition query_request : Api.Call :=
  Api.call (Api.databases_query "db" 1 "URL" "https://x.com").

Definition properties_a (tags : list string) : Api.Properties :=
  [ ("Title", Some (Api.title "Book A")); ("URL", Some (Api.url "https://x.com"));
    ("Source", None); ("Book", Some (Api.rich_text (JStr "Book A")));
    ("Author", None); ("Tags", Some (Api.multi_select (toMultiSelect tags))) ].

End Scenario.

(* ===================================================================== *)
(** ** Vocabulary of the specification *)
(* ===================================================================== *)

(** The input of the Normalizer, as the data model has it: [results]
    is absent, [null] (or any other falsy value, which [|| []]
    replaces alike) or an array of books. *)
Definition books_of (results : JsVal) : option (list JsVal) :=
  match results with
  | JArr books => Some books
  | _ => if Js.Boolean results then None else Some []
  end.

(** The highlights of a book: those of its [highlights] array; none
    for a book that is [null] or has no such array. *)
Definition highlights_of (book : JsVal) : list JsVal :=
  match Js.opt book "highlights" with
  | JArr hs => hs
  | _ => []
  end.

(** A raw highlight: neither [null] nor [undefined], with an [id]
    that [String] can convert (an [id] that is absent, a string or a
    number is one). *)
Definition is_raw_highlight (h : JsVal) : bool :=
  negb (Js.nullish h) && Js.printable (Js.member h "id").

(** A raw book: [null], or a value whose [highlights] is absent,
    falsy, or an array of raw highlights. *)
Definition is_raw_book (book : JsVal) : bool :=
  match Js.opt book "highlights" with
  | JArr hs => forallb is_raw_highlight hs
  | v => negb (Js.Boolean v)
  end.

Definition highlight_count (book : JsVal) : nat := List.length (highlights_of book).

(** What the specification says of one entry of a raw [tags] array: a
    bare string is kept, a tag object whose [name] is a string gives its
    name, any other shape is dropped, and so is an empty result. *)
Definition kept_tag (t : JsVal) : option string :=
  match t with
  | JStr s => if s =? "" then None else Some s
  | JObj fields =>
      match Js.assoc "name" fields with
      | Some (JStr s) => if s =? "" then None else Some s
      | _ => None
      end
  | _ => None
  end.

Definition kept_tags (raw_tags : JsVal) : list string :=
  match raw_tags with
  | JArr l => flat_map (fun t => match kept_tag t with Some s => [s] | None => [] end) l
  | _ => []
  end.

Definition is_kept (t : JsVal) : bool :=
  match kept_tag t with Some _ => true | None => false end.

(** The union of two tag lists in first-seen order: the existing tags
    first, in their order, then the new tags that are not among them,
    each tag once. *)
Definition union_first_seen (existing new : list string) : list string :=
  first_occurrences existing
  ++ first_occurrences (filter (fun t => negb (JsSet.has t existing)) new).

(** The requests of a trace that write to the destination. *)
Definition is_write (c : Api.Call) : bool :=
  match c with
  | Api.call (Api.pages_update _ _) | Api.call (Api.pages_create _ _) => true
  | _ => false
  end.

(** The [params] of the requests a trace sends to Readwise, in order. *)
Fixpoint fetch_params (t : list Api.Call) : list (list (string * JsVal)) :=
  match t with
  | [] => []
  | Api.call (Api.axios_get _ _ params _) :: rest => params :: fetch_params rest
  | _ :: rest => fetch_params rest
  end.

(** The relation between a raw highlight and the record pushed for it
    that the inner loop establishes. *)
Definition normalized_from (raw : JsVal) (o : NormalizedHighlight) : Prop :=
  tags o = filter_Boolean (map tag_name (rawTags (Js.member raw "tags")))
  /\ highlighted_at o
     = Js.or (Js.or (Js.member raw "highlighted_at") (Js.member raw "created_at")) JNull
  /\ location o = Js.coalesce (Js.member raw "location") JNull.

(** Running [p] and then what [k] makes of its result: the traces
    follow one another, and an exception in [p] ends the run. *)
Definition and_then {A B W} (r : Run A W) (k : A -> W -> Run B W) : Run B W :=
  match outcome r with
  | Ok a =>
      {| outcome := outcome (k a (world r));
         world := world (k a (world r));
         trace := trace r ++ trace (k a (world r)) |}
  | Err e => {| outcome := Err e; world := world r; trace := trace r |}
  end.

(** The highlight passes the two guards of the Upserter, [u] being its
    trimmed URL. *)
Definition passes_guards (h : NormalizedHighlight) (u : string) : Prop :=
  call_trim (Js.or (url h) (JStr "")) = Ok u
  /\ u <> ""
  /\ filter_Boolean (tags h) <> [].



(** The response of a creation includes a record identifier. *)
Definition includes_identifier (resp : JsVal) : bool :=
  match resp with
  | JObj fields =>
      match Js.assoc "id" fields with
      | Some i => Js.Boolean i
      | None => false
      end
  | _ => false
  end.

(** The request of the Matcher for the URL [u]. *)
Definition matcher_request (cfg : Config) (u : string) : Api.Request Api.QueryResponse :=
  Api.databases_query (NOTION_DATABASE_ID cfg) 1 "URL" u.

(** The properties of a write for highlight [h], whose trimmed URL is
    [u] and whose title is [t], carrying the tags [l]. *)
Definition write_properties (h : NormalizedHighlight) (u t : string) (l : list string)
  : Api.Properties :=
  baseProperties h u t ++ [("Tags", Some (Api.multi_select (toMultiSelect l)))].


(** A highlight on which the Upserter throws no [TypeError]: its
    [url] is a string or falsy, its [book_title] a string, [null] or
    absent, as the data model of the specification has them. *)
Definition is_typed (h : NormalizedHighlight) : bool :=
  match url h with
  | JStr _ => true
  | v => negb (Js.Boolean v)
  end
  && match book_title h with
     | JStr _ | JNull | JUndefined => true
     | _ => false
     end.

(** An export page the Orchestrator goes through without an
    exception: an object whose [results] normalise to typed
    highlights. *)
Definition is_export_page (page : JsVal) : bool :=
  negb (Js.nullish page)
  && match normalizeHighlights (Js.member page "results") with
     | Ok hs => forallb is_typed hs
     | Err _ => false
     end.

(** The page announces a next page. *)
Definition has_next (page : JsVal) : bool :=
  Js.Boolean (Js.member page "nextPageCursor").

(** The [params] of the request for the page after [page]. *)
Definition next_params (page : JsVal) : list (string * JsVal) :=
  [("pageCursor", Js.member page "nextPageCursor")].

(** *** The Normalizer in closed form *)

(** The values a loop visits, none when the value is not iterable. *)
Definition elements (v : JsVal) : list JsVal :=
  match iterate v with
  | Ok l => l
  | Err _ => []
  end.

(** The highlights the inner loop visits for [book]. *)
Definition visited_highlights (book : JsVal) : list JsVal :=
  elements (Js.or (Js.opt book "highlights") (JArr [])).

(** The books the outer loop visits. *)
Definition visited_books (results : JsVal) : list JsVal :=
  elements (Js.or results (JArr [])).

(** The record pushed for the raw highlight [h] of [book], when one
    is pushed: the loop throws instead when [String(h.id)] does, a
    case in which the [id] below is left empty. *)
Definition record_of (book h : JsVal) : NormalizedHighlight :=
  {| id := match Js.String_ (Js.member h "id") with
           | Ok s => s
           | Err _ => ""
           end;
     text := Js.or (Js.member h "text") (JStr "");
     note := Js.or (Js.member h "note") (JStr "");
     location := Js.coalesce (Js.member h "location") JNull;
     highlighted_at :=
       Js.or (Js.or (Js.member h "highlighted_at") (Js.member h "created_at")) JNull;
     url := Js.or (Js.or (Js.member h "url")
                     (Js.or (Js.opt book "source_url") (JStr "")))
              (JStr "");
     tags := filter_Boolean (map tag_name (rawTags (Js.member h "tags")));
     book_title := Js.or (Js.opt book "title") (JStr "");
     book_author := Js.or (Js.opt book "author") (JStr "");
     source_url := Js.or (Js.opt book "source_url") (JStr "");
     category := Js.or (Js.opt book "category") (JStr "") |}.

Definition records_of_book (book : JsVal) : list NormalizedHighlight :=
  map (record_of book) (visited_highlights book).

Definition records_of (results : JsVal) : list NormalizedHighlight :=
  flat_map records_of_book (visited_books results).

(** The loops go through without an exception: what is iterated is an
    array or a string, no highlight is [null] or [undefined], and the
    [id] of every highlight is a value that [String] can convert. *)
Definition iterable (v : JsVal) : bool :=
  match v with
  | JArr _ | JStr _ => true
  | _ => false
  end.

Definition book_goes_through (book : JsVal) : bool :=
  iterable (Js.or (Js.opt book "highlights") (JArr []))
  && forallb is_raw_highlight (visited_highlights book).

Definition goes_through (results : JsVal) : bool :=
  iterable (Js.or results (JArr []))
  && forallb book_goes_through (visited_books results).

(** A value that is a string, or falsy. *)
Definition string_or_falsy (v : JsVal) : bool :=
  match v with
  | JStr _ => true
  | _ => negb (Js.Boolean v)
  end.

(** The fields of the export the Upserter will call [trim] on hold
    strings, or nothing: the [url] of the highlight and the
    [source_url] and [title] of its book. *)
Definition typed_source (book h : JsVal) : bool :=
  string_or_falsy (Js.member h "url")
  && string_or_falsy (Js.opt book "source_url")
  && string_or_falsy (Js.opt book "title").

(** A world in which every request is rejected. *)
Definition offline : Env unit :=
  fun X _ w => (Err (Rejected (JStr "offline")), w).

(** The request of the Paginator for the cursor [c]. *)
Definition paginator_request (cfg : Config) (c : JsVal) : Api.Request Api.AxiosResponse :=
  Api.axios_get "https://readwise.io/api/v2/export/"
    [("Authorization", ("Token " ++ READWISE_TOKEN cfg)%string)]
    (if Js.Boolean c then [("pageCursor", c)] else [])
    30000.

(** Counting the requests of a trace. *)
Definition count (p : Api.Call -> bool) (t : list Api.Call) : nat :=
  List.length (filter p t).

Definition is_sleep (c : Api.Call) : bool :=
  match c with Api.call (Api.sleep ms) => (ms =? 150)%Z | _ => false end.

Definition is_query (c : Api.Call) : bool :=
  match c with Api.call (Api.databases_query _ _ _ _) => true | _ => false end.

Definition is_create (c : Api.Call) : bool :=
  match c with Api.call (Api.pages_create _ _) => true | _ => false end.

Definition is_fetch (c : Api.Call) : bool :=
  match c with Api.call (Api.axios_get _ _ _ _) => true | _ => false end.

(** A trace accounts for [df] highlights gone through and [dc] pages
    counted as created: one sleep per highlight, at most one query per
    highlight, at most one write per query, and no more pages counted
    than creations sent. *)
Definition accounts (t : list Api.Call) (df dc : nat) : Prop :=
  count is_sleep t = df
  /\ dc <= count is_create t
  /\ count is_create t <= count is_write t
  /\ count is_write t <= count is_query t
  /\ count is_query t <= df.

(** The variables of the loop, whether it goes on or breaks. *)
Definition loop_state (r : Loop + Loop) : Loop :=
  match r with inl st | inr st => st end.

(* ===================================================================== *)
(** ** Properties *)
(* ===================================================================== *)

(** *** The end-to-end scenarios *)

(** One page, one book, one tagged highlight, empty database: one
    page is created and the summary counts one fetched, one created. *)
Example scenario_create :
  run services (main Scenario.cfg 1)
    {| readwise := [Scenario.export_page [Scenario.book_a [JStr "t1"]] JNull];
       notion := Scenario.empty_db |}
  = {| outcome := Ok (Some (1, 1));
       world := {| readwise := []; notion := Scenario.db_a ["t1"] |};
       trace := [ Scenario.get_request [];
                  Scenario.query_request;
                  Api.call (Api.pages_create "db" (Scenario.properties_a ["t1"]));
                  Api.call (Api.sleep 150) ] |}.
Proof. reflexivity. Qed.

(** The same highlight again: nothing is written. *)
Example scenario_again :
  run services (upsertUrlWithTags Scenario.cfg (Scenario.h1 ["t1"]))
    {| readwise := []; notion := Scenario.db_a ["t1"] |}
  = {| outcome := Ok false;
       world := {| readwise := []; notion := Scenario.db_a ["t1"] |};
       trace := [ Scenario.query_request ] |}.
Proof. reflexivity. Qed.

(** A new tag on a known URL: one update with the merged tags. *)
Example scenario_update :
  run services (upsertUrlWithTags Scenario.cfg (Scenario.h1 ["t1"; "t2"]))
    {| readwise := []; notion := Scenario.db_a ["t1"] |}
  = {| outcome := Ok false;
       world := {| readwise := []; notion := Scenario.db_a ["t1"; "t2"] |};
       trace := [ Scenario.query_request;
                  Api.call (Api.pages_update "page-0"
                              (Scenario.properties_a ["t1"; "t2"])) ] |}.
Proof. reflexivity. Qed.

(** Two pages linked by a cursor: two requests, the second with the
    cursor of the first page. *)
Example scenario_two_pages :
  trace (run services (main Scenario.cfg 2)
           {| readwise := [Scenario.export_page [] (JStr "c1");
                           Scenario.export_page [] JNull];
              notion := Scenario.empty_db |})
  = [ Scenario.get_request []; Scenario.get_request [("pageCursor", JStr "c1")] ].
Proof. reflexivity. Qed.

(* ===================================================================== *)
(** *** The fragment of JavaScript *)
(* ===================================================================== *)

Example String_demo :
  Js.String_ (JNum 0) = Ok "0"
  /\ Js.String_ (JNum (-12)) = Ok "-12"
  /\ Js.String_ (JStr "a1") = Ok "a1"
  /\ Js.String_ JUndefined = Ok "undefined"
  /\ Js.String_ (JArr [JNum 1; JNull; JArr [JStr "x"; JBool true]]) = Ok "1,,x,true"
  /\ Js.String_ (JObj [("id", JNum 1)]) = Ok "[object Object]"
  /\ Js.String_ (JObj [("toString", JNum 1)]) = Err TypeError
  /\ Js.String_ (JArr [JNum 1; JObj [("id", JNum 1); ("toString", JNull)]])
     = Err TypeError.
Proof. repeat split; vm_compute; reflexivity. Qed.

(** Integers up to [2^53] print in full; beyond, a number prints with
    the digits that tell its double from the others, and from [10^21]
    on with an exponent. *)
Example Number_toString_demo :
  Js.Number_toString 9007199254740991 = "9007199254740991"
  /\ Js.Number_toString 9007199254740993 = "9007199254740992"
  /\ Js.Number_toString (2 ^ 60) = "1152921504606847000"
  /\ Js.Number_toString (10 ^ 21 - 1) = "1e+21"
  /\ Js.Number_toString (10 ^ 21) = "1e+21"
  /\ Js.Number_toString (- 2 ^ 70) = "-1.1805916207174113e+21"
  /\ Js.Number_toString (10 ^ 23) = "1e+23"
  /\ Js.Number_toString (2 ^ 1024) = "Infinity".
Proof. repeat split; vm_compute; reflexivity. Qed.

(** Induction on a value, with the elements of an array as smaller
    values. *)
Section JsVal_induction.

Variable P : JsVal -> Prop.
Hypothesis P_other : forall v, Js.isArray v = false -> P v.
Hypothesis P_array : forall l, Forall P l -> P (JArr l).

Fixpoint JsVal_array_ind (v : JsVal) : P v :=
  match v with
  | JArr l =>
      P_array l
        ((fix all (l : list JsVal) : Forall P l :=
            match l with
            | [] => Forall_nil P
            | x :: r => Forall_cons x (JsVal_array_ind x) (all r)
            end) l)
  | JUndefined => P_other JUndefined eq_refl
  | JNull => P_other JNull eq_refl
  | JBool b => P_other (JBool b) eq_refl
  | JNum n => P_other (JNum n) eq_refl
  | JNaN => P_other JNaN eq_refl
  | JStr s => P_other (JStr s) eq_refl
  | JObj fields => P_other (JObj fields) eq_refl
  end.

End JsVal_induction.

Lemma String_cons (x : JsVal) (r : list JsVal) :
  Js.String_ (JArr (x :: r))
  = let? sx := match x with
               | JUndefined | JNull => Ok ""
               | _ => Js.String_ x
               end in
    match r with
    | [] => Ok sx
    | _ :: _ => let? sr := Js.String_ (JArr r) in Ok (sx ++ "," ++ sr)%string
    end.
Proof. reflexivity. Qed.

Lemma printable_cons (x : JsVal) (r : list JsVal) :
  Js.printable (JArr (x :: r)) = Js.printable x && Js.printable (JArr r).
Proof. reflexivity. Qed.

(** [String] throws nothing but a [TypeError], and throws it exactly
    on the values that are not [printable]: the objects with a
    [toString] property of their own, and the arrays that hold one,
    at any depth. *)
Lemma String_printable (v : JsVal) :
  if Js.printable v
  then exists s, Js.String_ v = Ok s
  else Js.String_ v = Err TypeError.
Proof.
  induction v as [v Hv|l IH] using JsVal_array_ind.
  - destruct v as [| |[]|n| |s|l|fields]; try discriminate; cbn; eauto.
    destruct (Js.assoc "toString" fields); eauto.
  - induction IH as [|x r Hx _ IHr]; [cbn; eauto|].
    rewrite printable_cons, String_cons.
    destruct (Js.printable x) eqn:Ex.
    + destruct Hx as [sx Hsx].
      assert (Hhead : (match x with
                       | JUndefined | JNull => Ok ""
                       | _ => Js.String_ x
                       end) = Ok (if Js.nullish x then "" else sx)).
      { destruct x; cbn; try exact Hsx; reflexivity. }
      rewrite Hhead. cbn [ResultMonad.bind andb].
      destruct r as [|y r]; [cbn; eauto|].
      destruct (Js.printable (JArr (y :: r))).
      * destruct IHr as [sr ->]. cbn. eauto.
      * rewrite IHr. reflexivity.
    + assert (Hhead : (match x with
                       | JUndefined | JNull => Ok ""
                       | _ => Js.String_ x
                       end) = Err TypeError).
      { destruct x; try discriminate; exact Hx. }
      rewrite Hhead. reflexivity.
Qed.

Lemma String_of_printable (v : JsVal) :
  Js.printable v = true -> exists s, Js.String_ v = Ok s.
Proof. intros H. pose proof (String_printable v) as Hv. now rewrite H in Hv. Qed.

Example trim_demo :
  Js.trim "  a b  " = "a b" /\ Js.trim "   " = "" /\ Js.trim "" = ""
  /\ Js.trim (String (ascii_of_nat 9) (String (ascii_of_nat 160) "x")) = "x".
Proof. repeat split. Qed.

(** The mapping of a tag, with the [typeof] tests of the source. *)
Lemma tag_name_typeof (t : JsVal) :
  JStr (tag_name t)
  = if Js.typeof t =? "string" then t
    else if Js.typeof (Js.opt t "name") =? "string" then Js.member t "name"
         else JStr "".
Proof.
  destruct t as [| |b|n| |s|l|fs]; try reflexivity.
  cbn. destruct (Js.assoc "name" fs) as [[| |b|n| |s|l|fs']|]; reflexivity.
Qed.

(** [Array.isArray(h.tags) ? h.tags : []] *)
Lemma rawTags_isArray (v : JsVal) :
  rawTags v = if Js.isArray v then match v with JArr l => l | _ => [] end else [].
Proof. now destruct v. Qed.

(* ===================================================================== *)
(** *** Normalizer *)
(* ===================================================================== *)

Example normalize_demo :
  normalizeHighlights
    (JArr [ JObj [ ("title", JStr "Book A");
                   ("highlights",
                    JArr [ JObj [ ("id", JNum 1); ("url", JStr "https://x.com");
                                  ("tags", JArr [ JStr "t1"; JObj [("name", JStr "t2")];
                                                  JNum 3; JStr "" ]) ] ]) ] ])
  = Ok [ {| id := "1"; text := JStr ""; note := JStr ""; location := JNull;
            highlighted_at := JNull; url := JStr "https://x.com";
            tags := ["t1"; "t2"];
            book_title := JStr "Book A"; book_author := JStr "";
            source_url := JStr ""; category := JStr "" |} ].
Proof. reflexivity. Qed.

(** The record the inner loop pushes for a raw highlight. *)
Lemma push_highlight_ok (m_title m_author m_source_url m_category : JsVal)
  (acc : list NormalizedHighlight) (h : JsVal) :
  is_raw_highlight h = true ->
  exists o,
    push_highlight m_title m_author m_source_url m_category acc h = Ok (acc ++ [o])
    /\ tags o = filter_Boolean (map tag_name (rawTags (Js.member h "tags")))
    /\ highlighted_at o
       = Js.or (Js.or (Js.member h "highlighted_at") (Js.member h "created_at")) JNull
    /\ location o = Js.coalesce (Js.member h "location") JNull.
Proof.
  unfold is_raw_highlight. intros [Hh Hid]%andb_true_iff.
  apply negb_true_iff in Hh.
  destruct (String_of_printable _ Hid) as [s Hs].
  unfold push_highlight, get. rewrite Hh. cbn [ResultMonad.bind].
  rewrite Hs. cbn [ResultMonad.bind].
  eexists. split; [reflexivity|]. cbn. auto.
Qed.

Lemma push_highlight_null (m1 m2 m3 m4 : JsVal) (acc : list NormalizedHighlight)
  (h : JsVal) :
  Js.nullish h = true -> push_highlight m1 m2 m3 m4 acc h = Err TypeError.
Proof. intros Hh. unfold push_highlight, get. rewrite Hh. reflexivity. Qed.

Lemma inner_loop_ok (m1 m2 m3 m4 : JsVal) (hs : list JsVal) :
  forallb is_raw_highlight hs = true ->
  forall acc, exists out,
    for_of hs (push_highlight m1 m2 m3 m4) acc = Ok (acc ++ out)
    /\ Forall2 normalized_from hs out.
Proof.
  induction hs as [|h hs IH]; intros Hall acc.
  - exists []. split; [cbn; now rewrite app_nil_r | constructor].
  - cbn [forallb] in Hall. apply andb_true_iff in Hall as [Hh Hhs].
    destruct (push_highlight_ok m1 m2 m3 m4 acc h Hh) as (o & Hpush & Ho).
    destruct (IH Hhs (acc ++ [o])) as (out & Hloop & Hout).
    exists (o :: out). split.
    + cbn [for_of]. rewrite Hpush. cbn [ResultMonad.bind]. rewrite Hloop.
      now rewrite <- app_assoc.
    + constructor; [exact Ho | exact Hout].
Qed.

Lemma push_book_ok (acc : list NormalizedHighlight) (book : JsVal) :
  is_raw_book book = true ->
  exists out,
    push_book acc book = Ok (acc ++ out)
    /\ Forall2 normalized_from (highlights_of book) out.
Proof.
  unfold is_raw_book, push_book, highlights_of. intros Hbook.
  destruct (Js.opt book "highlights") as [| |b|n| |s|hs|fs] eqn:E;
    cbn in Hbook; try discriminate;
    try (exists []; cbn; rewrite app_nil_r; split; [reflexivity | constructor]).
  - apply negb_true_iff in Hbook. unfold Js.or. cbn [Js.Boolean]. rewrite Hbook.
    exists []. cbn. rewrite app_nil_r. split; [reflexivity | constructor].
  - apply negb_true_iff in Hbook. unfold Js.or. cbn [Js.Boolean]. rewrite Hbook.
    exists []. cbn. rewrite app_nil_r. split; [reflexivity | constructor].
  - apply negb_true_iff in Hbook. unfold Js.or. cbn [Js.Boolean]. rewrite Hbook.
    exists []. cbn. rewrite app_nil_r. split; [reflexivity | constructor].
  - unfold Js.or. cbn [Js.Boolean iterate ResultMonad.bind].
    apply inner_loop_ok. exact Hbook.
Qed.

Lemma outer_loop_ok (books : list JsVal) :
  forallb is_raw_book books = true ->
  forall acc, exists out,
    for_of books push_book acc = Ok (acc ++ out)
    /\ Forall2 normalized_from (flat_map highlights_of books) out.
Proof.
  induction books as [|book books IH]; intros Hall acc.
  - exists []. split; [cbn; now rewrite app_nil_r | constructor].
  - cbn in Hall. apply andb_true_iff in Hall as [Hb Hbs].
    destruct (push_book_ok acc book Hb) as (o1 & H1 & F1).
    destruct (IH Hbs (acc ++ o1)) as (o2 & H2 & F2).
    exists (o1 ++ o2). split.
    + cbn [for_of]. rewrite H1. cbn [ResultMonad.bind]. rewrite H2. now rewrite <- app_assoc.
    + cbn [flat_map]. apply Forall2_app; assumption.
Qed.

Lemma normalize_ok (results : JsVal) (books : list JsVal) :
  books_of results = Some books ->
  forallb is_raw_book books = true ->
  exists out,
    normalizeHighlights results = Ok out
    /\ Forall2 normalized_from (flat_map highlights_of books) out.
Proof.
  intros Hres Hall.
  destruct (outer_loop_ok books Hall []) as (out & Hloop & Hout).
  exists out. split; [|exact Hout].
  unfold books_of in Hres.
  destruct results as [| |b|n| |s|l|fs]; cbn in Hres;
    unfold normalizeHighlights, Js.or; cbn [Js.Boolean].
  - injection Hres as <-. exact Hloop.
  - injection Hres as <-. exact Hloop.
  - destruct b; [discriminate|]. injection Hres as <-. exact Hloop.
  - destruct (negb (n =? 0)%Z); [discriminate|]. injection Hres as <-. exact Hloop.
  - injection Hres as <-. exact Hloop.
  - destruct (negb (s =? "")); [discriminate|]. injection Hres as <-. exact Hloop.
  - injection Hres as <-. exact Hloop.
  - discriminate.
Qed.

Lemma length_flat_map_sum {A B} (f : A -> list B) (l : list A) :
  List.length (flat_map f l) = list_sum (map (fun x => List.length (f x)) l).
Proof.
  induction l as [|x l IH]; cbn; [reflexivity|].
  now rewrite length_app, IH.
Qed.

(** The mapping and the filter of the code keep exactly the tags the
    specification describes. *)
Lemma tags_as_specified (v : JsVal) :
  filter_Boolean (map tag_name (rawTags v)) = kept_tags v.
Proof.
  destruct v as [| |b|n| |s|l|fs]; try reflexivity.
  cbn [rawTags kept_tags]. unfold filter_Boolean.
  induction l as [|t l IH]; [reflexivity|].
  cbn [map filter flat_map]. rewrite IH. clear IH.
  destruct t as [| |b|n| |s|l'|fs]; try reflexivity.
  - cbn. destruct (s =? ""); reflexivity.
  - cbn. destruct (Js.assoc "name" fs) as [[| |b|n| |s|l'|fs']|]; try reflexivity.
    cbn. destruct (s =? ""); reflexivity.
Qed.

Lemma kept_tags_length (l : list JsVal) :
  List.length (kept_tags (JArr l)) = List.length (filter is_kept l).
Proof.
  cbn [kept_tags]. unfold is_kept.
  induction l as [|t l IH]; [reflexivity|].
  cbn [flat_map filter]. rewrite length_app, IH.
  destruct (kept_tag t); reflexivity.
Qed.

(** C6.  For an array of raw books (or a [null], absent or otherwise
    falsy [results]), the highlights of a raw book being neither
    [null] nor [undefined] and having an [id] that [String] converts,
    [normalizeHighlights] returns, and it returns as many records as
    the books have highlights: the count does not depend on the tags,
    whose filtering removes tag entries only. *)
Theorem normalizeHighlights_length (results : JsVal) (books : list JsVal) :
  books_of results = Some books ->
  forallb is_raw_book books = true ->
  exists out,
    normalizeHighlights results = Ok out
    /\ List.length out = list_sum (map highlight_count books).
Proof.
  intros Hres Hall.
  destruct (normalize_ok results books Hres Hall) as (out & Hout & Hrel).
  exists out. split; [exact Hout|].
  rewrite <- (Forall2_length Hrel).
  apply length_flat_map_sum.
Qed.

Lemma normalizeHighlights_length_witness :
  exists out,
    normalizeHighlights
      (JArr [ JObj [ ("title", JStr "A");
                     ("highlights",
                      JArr [ JObj [("id", JNum 1); ("tags", JArr [JNum 7; JNull])];
                             JObj [("id", JNum 2); ("tags", JStr "x")] ]) ];
              JNull;
              JObj [ ("highlights", JArr [ JObj [("id", JNum 3)] ]) ] ]) = Ok out
    /\ List.length out = 3.
Proof.
  apply (normalizeHighlights_length _
           [ JObj [ ("title", JStr "A");
                    ("highlights",
                     JArr [ JObj [("id", JNum 1); ("tags", JArr [JNum 7; JNull])];
                            JObj [("id", JNum 2); ("tags", JStr "x")] ]) ];
             JNull;
             JObj [ ("highlights", JArr [ JObj [("id", JNum 3)] ]) ] ]);
    reflexivity.
Defined.

(** The inputs at the edge of the hypotheses: no [results] gives no
    record; a [null] where a highlight should be is a [TypeError] (the
    loop reads [h.tags]), and so is an [id] that [String] cannot
    convert. *)
Example normalize_edge :
  normalizeHighlights JNull = Ok []
  /\ normalizeHighlights JUndefined = Ok []
  /\ normalizeHighlights (JArr []) = Ok []
  /\ normalizeHighlights (JArr [JObj [("highlights", JArr [JNull])]]) = Err TypeError
  /\ normalizeHighlights
       (JArr [JObj [("highlights", JArr [JObj [("id", JObj [("toString", JNum 1)])]])]])
     = Err TypeError.
Proof. repeat split. Qed.

(** The [id] of a record is what [String] prints: an absent [id] is
    [undefined], a large one has an exponent. *)
Example normalize_ids :
  match normalizeHighlights
          (JArr [JObj [("highlights",
                        JArr [ JObj []; JObj [("id", JNum (10 ^ 21))];
                               JObj [("id", JNum 9007199254740993)];
                               JObj [("id", JArr [JNum 1; JNum 2])] ])]])
  with
  | Ok out => map id out
  | Err _ => []
  end
  = ["undefined"; "1e+21"; "9007199254740992"; "1,2"].
Proof. vm_compute. reflexivity. Qed.

(** C7.  For raw books as in C6, each record [normalizeHighlights]
    returns stands for one raw highlight, in order, and
    - its tags are the bare strings and the string names of tag
      objects of the raw [tags] array, in order, without the empty
      ones, every other shape being dropped; nothing is deduplicated:
      there is one tag for every kept entry;
    - its [highlighted_at] is the raw [highlighted_at], else the raw
      [created_at], else [null];
    - its [location] is the raw [location] whenever the raw highlight
      has one ([null] included), and [null] when it has none; it is the
      empty string only when the raw location is. *)
Theorem normalizeHighlights_fields (results : JsVal) (books : list JsVal) :
  books_of results = Some books ->
  forallb is_raw_book books = true ->
  exists out,
    normalizeHighlights results = Ok out
    /\ Forall2
         (fun raw o =>
            tags o = kept_tags (Js.member raw "tags")
            /\ List.length (tags o)
               = List.length (filter is_kept (rawTags (Js.member raw "tags")))
            /\ highlighted_at o
               = (if Js.Boolean (Js.member raw "highlighted_at")
                  then Js.member raw "highlighted_at"
                  else if Js.Boolean (Js.member raw "created_at")
                       then Js.member raw "created_at"
                       else JNull)
            /\ location o
               = match Js.member raw "location" with
                 | JUndefined => JNull
                 | v => v
                 end
            /\ (location o = JStr "" -> Js.member raw "location" = JStr ""))
         (flat_map highlights_of books) out.
Proof.
  intros Hres Hall.
  destruct (normalize_ok results books Hres Hall) as (out & Hout & Hrel).
  exists out. split; [exact Hout|].
  eapply Forall2_impl; [|exact Hrel].
  intros raw o (Ht & Hh & Hl).
  rewrite tags_as_specified in Ht.
  assert (Hloc : location o
                 = match Js.member raw "location" with
                   | JUndefined => JNull
                   | v => v
                   end).
  { rewrite Hl. unfold Js.coalesce. now destruct (Js.member raw "location"). }
  repeat split.
  - exact Ht.
  - rewrite Ht. destruct (Js.member raw "tags"); try reflexivity.
    apply kept_tags_length.
  - rewrite Hh. unfold Js.or.
    destruct (Js.Boolean (Js.member raw "highlighted_at")) eqn:E1.
    + now rewrite E1.
    + destruct (Js.Boolean (Js.member raw "created_at")) eqn:E2; now rewrite ?E2.
  - exact Hloc.
  - rewrite Hloc. destruct (Js.member raw "location"); congruence.
Qed.

Lemma normalizeHighlights_fields_witness :
  exists out,
    normalizeHighlights
      (JArr [ JObj [ ("highlights",
                      JArr [ JObj [ ("tags", JArr [ JStr "a"; JObj [("name", JStr "b")];
                                                    JStr "a"; JStr ""; JNum 4;
                                                    JObj [("name", JNum 1)] ]);
                                    ("created_at", JStr "2024-01-01");
                                    ("location", JNum 0) ] ]) ] ]) = Ok out
    /\ Forall2
         (fun raw o =>
            tags o = kept_tags (Js.member raw "tags")
            /\ List.length (tags o)
               = List.length (filter is_kept (rawTags (Js.member raw "tags")))
            /\ highlighted_at o
               = (if Js.Boolean (Js.member raw "highlighted_at")
                  then Js.member raw "highlighted_at"
                  else if Js.Boolean (Js.member raw "created_at")
                       then Js.member raw "created_at"
                       else JNull)
            /\ location o
               = match Js.member raw "location" with
                 | JUndefined => JNull
                 | v => v
                 end
            /\ (location o = JStr "" -> Js.member raw "location" = JStr ""))
         [ JObj [ ("tags", JArr [ JStr "a"; JObj [("name", JStr "b")];
                                  JStr "a"; JStr ""; JNum 4;
                                  JObj [("name", JNum 1)] ]);
                  ("created_at", JStr "2024-01-01");
                  ("location", JNum 0) ] ]
         out.
Proof.
  apply (normalizeHighlights_fields _
           [ JObj [ ("highlights",
                     JArr [ JObj [ ("tags", JArr [ JStr "a"; JObj [("name", JStr "b")];
                                                   JStr "a"; JStr ""; JNum 4;
                                                   JObj [("name", JNum 1)] ]);
                                   ("created_at", JStr "2024-01-01");
                                   ("location", JNum 0) ] ]) ] ]);
    reflexivity.
Defined.

(** The tags of the record above: the duplicate stays, the empty
    string, the number and the object without a string name go. *)
Example normalize_tags_demo :
  kept_tags (JArr [ JStr "a"; JObj [("name", JStr "b")]; JStr "a"; JStr ""; JNum 4;
                    JObj [("name", JNum 1)] ])
  = ["a"; "b"; "a"].
Proof. reflexivity. Qed.

(* ===================================================================== *)
(** *** Merging tags *)
(* ===================================================================== *)

Section TagLists.

Implicit Types (l s e t : list string) (x y : string).

Lemma has_In x s : JsSet.has x s = true <-> In x s.
Proof.
  unfold JsSet.has. rewrite existsb_exists. split.
  - intros (y & Hy & Heq). apply String.eqb_eq in Heq. now subst.
  - intros H. exists x. split; [exact H | apply String.eqb_refl].
Qed.

Lemma has_not_In x s : JsSet.has x s = false <-> ~ In x s.
Proof.
  rewrite <- has_In. destruct (JsSet.has x s); split; congruence.
Qed.

Lemma has_app x s1 s2 : JsSet.has x (s1 ++ s2) = JsSet.has x s1 || JsSet.has x s2.
Proof. unfold JsSet.has. apply existsb_app. Qed.

Lemma filter_filter {A} (p q : A -> bool) (l : list A) :
  filter p (filter q l) = filter (fun a => q a && p a) l.
Proof.
  induction l as [|a l IH]; [reflexivity|].
  cbn. destruct (q a); cbn; [destruct (p a)|]; now rewrite IH.
Qed.

Lemma filter_none {A} (p : A -> bool) (l : list A) :
  (forall a, In a l -> p a = false) -> filter p l = [].
Proof.
  induction l as [|a l IH]; intros H; [reflexivity|].
  cbn. rewrite (H a (or_introl eq_refl)). apply IH. intros b Hb. apply H. now right.
Qed.

Lemma filter_some {A} (p : A -> bool) (l : list A) (a : A) :
  In a l -> p a = true -> filter p l <> [].
Proof.
  intros Hin Hp Hnil.
  assert (H : In a (filter p l)) by (apply filter_In; auto).
  rewrite Hnil in H. exact H.
Qed.

Lemma first_occurrences_filter (p : string -> bool) l :
  first_occurrences (filter p l) = filter p (first_occurrences l).
Proof.
  induction l as [|x l IH]; [reflexivity|].
  cbn [filter first_occurrences]. destruct (p x) eqn:Hp.
  - cbn [first_occurrences filter]. rewrite ?Hp, IH. f_equal.
    rewrite !filter_filter. apply filter_ext. intros a. apply andb_comm.
  - rewrite IH, filter_filter. apply filter_ext. intros a.
    destruct (a =? x) eqn:E; [|reflexivity].
    apply String.eqb_eq in E. subst a. now rewrite Hp.
Qed.

Lemma In_first_occurrences x l : In x (first_occurrences l) <-> In x l.
Proof.
  induction l as [|y l IH]; [reflexivity|].
  cbn [first_occurrences In]. rewrite filter_In, IH, negb_true_iff.
  destruct (String.eqb_spec x y) as [->|Hne].
  - tauto.
  - split; [tauto|]. intros [H|H]; [now left | right; tauto].
Qed.

Lemma NoDup_filter {A} (p : A -> bool) (l : list A) : NoDup l -> NoDup (filter p l).
Proof.
  induction 1 as [|a l Hnin Hnd IH]; cbn; [constructor|].
  destruct (p a); [constructor|]; auto.
  rewrite filter_In. tauto.
Qed.

Lemma NoDup_first_occurrences l : NoDup (first_occurrences l).
Proof.
  induction l as [|x l IH]; cbn; constructor.
  - rewrite filter_In, String.eqb_refl. cbn. intros [_ H]. discriminate.
  - now apply NoDup_filter.
Qed.

Lemma first_occurrences_NoDup l : NoDup l -> first_occurrences l = l.
Proof.
  induction 1 as [|x l Hnin Hnd IH]; [reflexivity|].
  cbn. rewrite IH. f_equal.
  apply forallb_filter_id, forallb_forall. intros y Hy.
  apply negb_true_iff, String.eqb_neq. congruence.
Qed.

(** Adding the elements of [l] to a set [s], one after the other,
    appends to [s] those it does not hold yet, in first-seen order. *)
Lemma fold_add l : forall s,
  fold_left JsSet.add l s
  = s ++ first_occurrences (filter (fun x => negb (JsSet.has x s)) l).
Proof.
  induction l as [|x l IH]; intros s; cbn [fold_left filter].
  - cbn. now rewrite app_nil_r.
  - rewrite IH. unfold JsSet.add at 1 2. destruct (JsSet.has x s) eqn:Hx; cbn [negb].
    + reflexivity.
    + cbn [first_occurrences]. rewrite <- app_assoc. cbn [app]. do 2 f_equal.
      rewrite <- first_occurrences_filter, filter_filter. f_equal.
      apply filter_ext. intros a. rewrite has_app, negb_orb. f_equal.
      cbn. now rewrite orb_false_r.
Qed.

Lemma of_array_first_occurrences l : JsSet.of_array l = first_occurrences l.
Proof.
  unfold JsSet.of_array. rewrite fold_add. cbn [app JsSet.has existsb negb].
  f_equal. apply forallb_filter_id, forallb_forall. reflexivity.
Qed.

(** The merged list of the code is the union in first-seen order. *)
Lemma merged_union e t : merged e t = union_first_seen e t.
Proof.
  unfold merged, JsSet.to_array, JsSet.of_array, union_first_seen.
  rewrite fold_left_app. fold (JsSet.of_array e).
  rewrite of_array_first_occurrences, fold_add. do 2 f_equal.
  apply filter_ext. intros a. f_equal.
  apply eq_true_iff_eq. rewrite !has_In. apply In_first_occurrences.
Qed.

Lemma NoDup_merged e t : NoDup (merged e t).
Proof.
  unfold merged, JsSet.to_array. rewrite of_array_first_occurrences.
  apply NoDup_first_occurrences.
Qed.

Lemma In_merged x e t : In x (merged e t) <-> In x e \/ In x t.
Proof.
  unfold merged, JsSet.to_array.
  now rewrite of_array_first_occurrences, In_first_occurrences, in_app_iff.
Qed.

(** Tags that are all known already merge into the existing list. *)
Lemma merged_known e t :
  NoDup e -> (forall x, In x t -> In x e) -> merged e t = e.
Proof.
  intros Hnd Hknown. rewrite merged_union. unfold union_first_seen.
  rewrite first_occurrences_NoDup by exact Hnd.
  rewrite filter_none; [apply app_nil_r|].
  intros x Hx. apply negb_false_iff, has_In, Hknown, Hx.
Qed.

End TagLists.

(* ===================================================================== *)
(** *** The update condition *)
(* ===================================================================== *)

Section UpdateCondition.

Implicit Types (m e t : list string) (x : string) (i j : nat).

Lemma differs_at_true e x i : differs_at e x i = true <-> nth_error e i <> Some x.
Proof.
  unfold differs_at. destruct (nth_error e i) as [y|].
  - rewrite negb_true_iff, String.eqb_neq. split; congruence.
  - split; [discriminate | reflexivity].
Qed.

Lemma some_from_true {A} (f : A -> nat -> bool) (l : list A) : forall i,
  some_from f l i = true
  <-> exists j a, nth_error l j = Some a /\ f a (i + j) = true.
Proof.
  induction l as [|a l IH]; intros i; cbn [some_from].
  - split; [discriminate|]. intros ([|j] & b & H & _); discriminate.
  - rewrite orb_true_iff, IH. split.
    + intros [H | (j & b & Hj & Hf)].
      * exists 0, a. now rewrite Nat.add_0_r.
      * exists (S j), b. now rewrite Nat.add_succ_r.
    + intros ([|j] & b & Hj & Hf); cbn in Hj.
      * injection Hj as <-. left. now rewrite Nat.add_0_r in Hf.
      * right. exists j, b. now rewrite Nat.add_succ_r in Hf.
Qed.

(** No position of [m] differs from [e], read from index [length pre]
    on, exactly when [m] is a prefix of what [e] holds from there. *)
Lemma some_from_prefix m : forall pre e,
  some_from (differs_at (pre ++ e)) m (List.length pre) = false
  <-> exists rest, e = m ++ rest.
Proof.
  induction m as [|x m IH]; intros pre e; cbn [some_from].
  - split; [exists e; reflexivity | reflexivity].
  - rewrite orb_false_iff. unfold differs_at at 1.
    rewrite nth_error_app2, Nat.sub_diag by lia.
    destruct e as [|y e]; cbn [nth_error].
    + split; [intros [H _]; discriminate | intros [rest H]; discriminate].
    + replace (pre ++ y :: e) with ((pre ++ [y]) ++ e) by now rewrite <- app_assoc.
      replace (S (List.length pre)) with (List.length (pre ++ [y]))
        by (rewrite length_app; cbn; lia).
      rewrite IH, negb_false_iff, String.eqb_eq. split.
      * intros [-> [rest ->]]. now exists rest.
      * intros [rest H]. injection H as -> ->. split; [reflexivity | now exists rest].
Qed.

(** The comparison of the code is list equality. *)
Lemma needUpdate_false m e : needUpdate m e = false <-> m = e.
Proof.
  unfold needUpdate. rewrite orb_false_iff, negb_false_iff, Nat.eqb_eq.
  rewrite (some_from_prefix m [] e). split.
  - intros [Hlen [rest ->]]. rewrite length_app in Hlen.
    destruct rest; [now rewrite app_nil_r | cbn in Hlen; lia].
  - intros ->. split; [reflexivity | exists []; now rewrite app_nil_r].
Qed.

(** The comparison of the code, as the specification words it. *)
Lemma needUpdate_true m e :
  needUpdate m e = true
  <-> List.length m <> List.length e
      \/ exists i x, nth_error m i = Some x /\ nth_error e i <> Some x.
Proof.
  unfold needUpdate. rewrite orb_true_iff, negb_true_iff, Nat.eqb_neq, some_from_true.
  cbn [Nat.add]. split; (intros [H|(i & x & Hm & Hd)]; [now left | right]);
    exists i, x; (split; [exact Hm|]); now apply differs_at_true.
Qed.

Lemma needUpdate_merged_prefix e t :
  NoDup e ->
  merged e t = e ++ first_occurrences (filter (fun x => negb (JsSet.has x e)) t).
Proof.
  intros Hnd. rewrite merged_union. unfold union_first_seen.
  now rewrite first_occurrences_NoDup.
Qed.

Lemma first_occurrences_nil (l : list string) : first_occurrences l = [] -> l = [].
Proof. destruct l; [reflexivity | discriminate]. Qed.

End UpdateCondition.

(** C9.  When the existing tags hold no duplicate, the update condition
    of the code (the merged list differs from the existing one in length
    or at some position) says the same as the simpler test that some
    incoming tag is not among the existing ones; the merged list then
    starts with the existing list, so that no position differs unless
    the lengths differ too. *)
Theorem needUpdate_iff_new_tag (existingTags tags : list string) :
  NoDup existingTags ->
  needUpdate (merged existingTags tags) existingTags
  = existsb (fun t => negb (JsSet.has t existingTags)) tags
  /\ (needUpdate (merged existingTags tags) existingTags = true
      <-> exists t, In t tags /\ ~ In t existingTags)
  /\ (exists extra, merged existingTags tags = existingTags ++ extra)
  /\ (some_from (differs_at existingTags) (merged existingTags tags) 0 = true
      -> List.length (merged existingTags tags) <> List.length existingTags).
Proof.
  intros Hnd.
  pose proof (needUpdate_merged_prefix existingTags tags Hnd) as Hm.
  set (fresh := filter (fun x => negb (JsSet.has x existingTags)) tags) in Hm.
  assert (Hiff : needUpdate (merged existingTags tags) existingTags = true
                 <-> exists t, In t tags /\ ~ In t existingTags).
  { split.
    - intros Hup.
      destruct fresh as [|t fresh'] eqn:Hfresh.
      + cbn in Hm. rewrite app_nil_r in Hm.
        apply needUpdate_false in Hm. congruence.
      + assert (Hin : In t fresh) by (rewrite Hfresh; now left).
        apply filter_In in Hin as [Hin Hnew].
        apply negb_true_iff, has_not_In in Hnew. now exists t.
    - intros (t & Hin & Hnew).
      destruct (needUpdate (merged existingTags tags) existingTags) eqn:Hup;
        [reflexivity|].
      apply needUpdate_false in Hup. rewrite Hup in Hm.
      apply (f_equal (@List.length string)) in Hm. rewrite length_app in Hm.
      assert (Hnil : first_occurrences fresh = [])
        by (destruct (first_occurrences fresh); [reflexivity | cbn in Hm; lia]).
      apply first_occurrences_nil in Hnil.
      exfalso. eapply (filter_some _ tags t Hin); [|exact Hnil].
      now apply negb_true_iff, has_not_In. }
  split; [|split; [exact Hiff | split]].
  - apply eq_true_iff_eq. rewrite Hiff, existsb_exists. split.
    + intros (t & Hin & Hnew). exists t. split; [exact Hin|].
      now apply negb_true_iff, has_not_In.
    + intros (t & Hin & Hnew). exists t. split; [exact Hin|].
      now apply has_not_In, negb_true_iff.
  - eexists. exact Hm.
  - intros Hpos Hlen.
    assert (Hup : needUpdate (merged existingTags tags) existingTags = true)
      by (unfold needUpdate; rewrite Hpos; apply orb_true_r).
    rewrite Hm, length_app in Hlen.
    assert (Hnil : first_occurrences fresh = [])
      by (destruct (first_occurrences fresh); [reflexivity | cbn in Hlen; lia]).
    rewrite Hnil, app_nil_r in Hm. apply needUpdate_false in Hm. congruence.
Qed.

Lemma needUpdate_iff_new_tag_witness :
  needUpdate (merged ["a"; "b"] ["b"; "c"; "c"]) ["a"; "b"]
  = existsb (fun t => negb (JsSet.has t ["a"; "b"])) ["b"; "c"; "c"]
  /\ (needUpdate (merged ["a"; "b"] ["b"; "c"; "c"]) ["a"; "b"] = true
      <-> exists t, In t ["b"; "c"; "c"] /\ ~ In t ["a"; "b"])
  /\ (exists extra, merged ["a"; "b"] ["b"; "c"; "c"] = ["a"; "b"] ++ extra)
  /\ (some_from (differs_at ["a"; "b"]) (merged ["a"; "b"] ["b"; "c"; "c"]) 0 = true
      -> List.length (merged ["a"; "b"] ["b"; "c"; "c"]) <> List.length ["a"; "b"]).
Proof.
  apply (needUpdate_iff_new_tag ["a"; "b"] ["b"; "c"; "c"]).
  repeat constructor; cbn; intuition discriminate.
Defined.

(** Without the hypothesis the two conditions part: a record whose tag
    list held a duplicate is rewritten although no tag is new. *)
Example needUpdate_with_duplicate :
  merged ["a"; "a"] ["a"] = ["a"]
  /\ needUpdate (merged ["a"; "a"] ["a"]) ["a"; "a"] = true
  /\ existsb (fun t => negb (JsSet.has t ["a"; "a"])) ["a"] = false.
Proof. repeat split. Qed.

(* ===================================================================== *)
(** *** Running programs *)
(* ===================================================================== *)

Lemma and_then_ext {A B W} (r : Run A W) (k k' : A -> W -> Run B W) :
  (forall a w, k a w = k' a w) -> and_then r k = and_then r k'.
Proof. intros H. unfold and_then. destruct (outcome r); now rewrite ?H. Qed.

Section Running.

Context {W : Type} (env : Env W).

Lemma run_bind {A B} (p : Prog A) (f : A -> Prog B) : forall w,
  run env (ProgMonad.bind p f) w
  = and_then (run env p w) (fun a w' => run env (f a) w').
Proof.
  induction p as [a|e|X r k IH]; intros w; cbn [ProgMonad.bind run].
  - unfold and_then. cbn. now destruct (run env (f a) w).
  - reflexivity.
  - destruct (env X r w) as [[x|e] w'].
    + rewrite IH. unfold and_then, after_call. cbn.
      now destruct (outcome (run env (k x) w')).
    + reflexivity.
Qed.

Lemma run_lift {A} (r : Result A) (w : W) :
  run env (lift r) w
  = {| outcome := r; world := w; trace := [] |}.
Proof. now destruct r. Qed.

Lemma run_await {X} (r : Api.Request X) (w : W) :
  run env (await r) w
  = {| outcome := fst (env X r w); world := snd (env X r w); trace := [Api.call r] |}.
Proof. unfold await. cbn. now destruct (env X r w) as [[x|e] w']. Qed.

End Running.

(* ===================================================================== *)
(** *** Upserter *)
(* ===================================================================== *)

Lemma includes_identifier_eq (resp : JsVal) :
  Js.Boolean (Js.opt resp "id") = includes_identifier resp.
Proof.
  destruct resp as [| |b|n| |s|l|fs]; try reflexivity.
  cbn. now destruct (Js.assoc "id" fs).
Qed.

Section Upserter.

Context {W : Type} (env : Env W) (cfg : Config).

Lemma run_findPageByUrl (u : string) (w : W) :
  run env (findPageByUrl cfg u) w
  = match env _ (matcher_request cfg u) w with
    | (Ok resp, w1) =>
        {| outcome := Ok (match Api.results resp with
                          | Some (page :: _) => Some page
                          | _ => None
                          end);
           world := w1; trace := [Api.call (matcher_request cfg u)] |}
    | (Err e, w1) => {| outcome := Err e; world := w1; trace := [Api.call (matcher_request cfg u)] |}
    end.
Proof.
  unfold findPageByUrl, await. cbn. fold (matcher_request cfg u).
  now destruct (env _ (matcher_request cfg u) w) as [[resp|e] w1].
Qed.

(** A highlight stopped by a guard: the program is a bare [return]. *)
Lemma upsert_guarded (h : NormalizedHighlight) (u : string) :
  call_trim (Js.or (url h) (JStr "")) = Ok u ->
  u = "" \/ filter_Boolean (tags h) = [] ->
  upsertUrlWithTags cfg h = Ret false.
Proof.
  intros Hu Hguard. unfold upsertUrlWithTags. rewrite Hu. cbn [lift ProgMonad.bind].
  destruct Hguard as [-> | Htags]; [reflexivity|].
  rewrite Htags. cbn. now destruct (negb (negb (u =? ""))).
Qed.

Lemma upsert_throws (h : NormalizedHighlight) (e : Exn) :
  call_trim (Js.or (url h) (JStr "")) = Err e ->
  upsertUrlWithTags cfg h = Throw e.
Proof. intros Hu. unfold upsertUrlWithTags. now rewrite Hu. Qed.

(** The three ways into the Upserter: [trim] throws, a guard stops the
    highlight, or the highlight passes. *)
Lemma upsert_guard_cases (h : NormalizedHighlight) :
  (exists e, call_trim (Js.or (url h) (JStr "")) = Err e
             /\ upsertUrlWithTags cfg h = Throw e
             /\ forall u, ~ passes_guards h u)
  \/ (upsertUrlWithTags cfg h = Ret false /\ forall u, ~ passes_guards h u)
  \/ (exists u, passes_guards h u).
Proof.
  destruct (call_trim (Js.or (url h) (JStr ""))) as [u|e] eqn:Hu.
  2:{ left. exists e. split; [reflexivity|]. split; [now apply upsert_throws|].
      intros u (Hu' & _). congruence. }
  right. destruct (String.eqb_spec u "") as [->|Hne].
  { left. split; [apply (upsert_guarded h "" Hu); now left|].
    intros u (Hu' & Hne & _). congruence. }
  destruct (filter_Boolean (tags h)) as [|x l] eqn:Htags.
  { left. split; [apply (upsert_guarded h u Hu); now right|].
    intros u' (_ & _ & Hl). congruence. }
  right. exists u. repeat split; [exact Hu | exact Hne | rewrite Htags; discriminate].
Qed.

(** A highlight that passes the guards: the Matcher is asked, and what
    follows depends on its answer. *)
Lemma run_upsert (h : NormalizedHighlight) (u : string) (w : W) :
  passes_guards h u ->
  run env (upsertUrlWithTags cfg h) w
  = and_then (run env (findPageByUrl cfg u) w)
      (fun found w1 =>
         match titleText h u with
         | Err e => {| outcome := Err e; world := w1; trace := [] |}
         | Ok t =>
             match found with
             | Some existing =>
                 let e := existingTags existing in
                 let m := merged e (filter_Boolean (tags h)) in
                 let request :=
                   Api.pages_update (Api.id existing)
                     (with_property (baseProperties h u t) "Tags"
                        (Some (Api.multi_select (toMultiSelect m)))) in
                 if needUpdate m e
                 then {| outcome := match fst (env _ request w1) with
                                    | Ok _ => Ok false
                                    | Err x => Err x
                                    end;
                         world := snd (env _ request w1);
                         trace := [Api.call request] |}
                 else {| outcome := Ok false; world := w1; trace := [] |}
             | None =>
                 let request :=
                   Api.pages_create (NOTION_DATABASE_ID cfg)
                     (with_property (baseProperties h u t) "Tags"
                        (Some (Api.multi_select (toMultiSelect (filter_Boolean (tags h)))))) in
                 {| outcome := match fst (env _ request w1) with
                               | Ok resp => Ok (includes_identifier resp)
                               | Err x => Err x
                               end;
                    world := snd (env _ request w1);
                    trace := [Api.call request] |}
             end
         end).
Proof.
  intros (Hu & Hne & Htags). unfold upsertUrlWithTags.
  rewrite Hu. cbn [lift ProgMonad.bind].
  replace (negb (Js.Boolean (JStr u))) with false
    by (cbn; apply String.eqb_neq in Hne; now rewrite Hne).
  replace (List.length (filter_Boolean (tags h)) =? 0)%nat with false
    by (destruct (filter_Boolean (tags h)); [congruence | reflexivity]).
  rewrite run_bind. apply and_then_ext. intros found w1.
  rewrite run_bind, run_lift. unfold and_then at 1. cbn [outcome world trace].
  destruct (titleText h u) as [t|e]; [|reflexivity].
  destruct found as [existing|].
  - cbn zeta. destruct (needUpdate _ _).
    + rewrite run_bind, run_bind, run_await. unfold and_then. cbn.
      now destruct (env _ _ w1) as [[x|x] w2].
    + reflexivity.
  - cbn zeta. rewrite run_bind, run_await. unfold and_then. cbn.
    destruct (env _ _ w1) as [[x|x] w2]; cbn; [|reflexivity].
    now rewrite includes_identifier_eq.
Qed.

End Upserter.

Lemma call_trim_string (s : string) :
  call_trim (Js.or (JStr s) (JStr "")) = Ok (Js.trim s).
Proof.
  unfold Js.or. cbn [Js.Boolean].
  destruct (String.eqb_spec s "") as [->|Hne]; reflexivity.
Qed.

Lemma write_properties_eq (h : NormalizedHighlight) (u t : string) (l : list string) :
  with_property (baseProperties h u t) "Tags"
    (Some (Api.multi_select (toMultiSelect l)))
  = write_properties h u t l.
Proof. reflexivity. Qed.


(** C2.  A highlight whose URL is blank once trimmed, or which has no
    tag left once the falsy ones are filtered out, is skipped: the
    program is a bare [return false], so that, whatever the services
    would answer, the run returns [false] having sent no request, to
    the Matcher or otherwise, and leaves the world as it was. *)
Theorem upsert_skips (cfg : Config) (h : NormalizedHighlight) (s : string) :
  url h = JStr s ->
  Js.trim s = "" \/ filter_Boolean (tags h) = [] ->
  upsertUrlWithTags cfg h = Ret false
  /\ forall (W : Type) (env : Env W) (w : W),
       run env (upsertUrlWithTags cfg h) w
       = {| outcome := Ok false; world := w; trace := [] |}.
Proof.
  intros Hurl Hguard.
  assert (Hret : upsertUrlWithTags cfg h = Ret false).
  { apply (upsert_guarded cfg h (Js.trim s)); [|exact Hguard].
    rewrite Hurl. apply call_trim_string. }
  split; [exact Hret|]. intros W env w. now rewrite Hret.
Qed.

Lemma upsert_skips_witness :
  upsertUrlWithTags Scenario.cfg
    {| id := "1"; text := JStr "quote"; note := JStr ""; location := JNull;
       highlighted_at := JNull; url := JStr "  "; tags := ["t1"];
       book_title := JStr "Book A"; book_author := JStr "";
       source_url := JStr ""; category := JStr "" |} = Ret false
  /\ forall (W : Type) (env : Env W) (w : W),
       run env
         (upsertUrlWithTags Scenario.cfg
            {| id := "1"; text := JStr "quote"; note := JStr ""; location := JNull;
               highlighted_at := JNull; url := JStr "  "; tags := ["t1"];
               book_title := JStr "Book A"; book_author := JStr "";
               source_url := JStr ""; category := JStr "" |}) w
       = {| outcome := Ok false; world := w; trace := [] |}.
Proof.
  apply (upsert_skips Scenario.cfg _ "  "); [reflexivity | left; reflexivity].
Defined.

Lemma trace_findPageByUrl {W} (env : Env W) (cfg : Config) (u : string) (w : W) :
  trace (run env (findPageByUrl cfg u) w) = [Api.call (matcher_request cfg u)].
Proof.
  rewrite run_findPageByUrl.
  now destruct (env _ (matcher_request cfg u) w) as [[resp|e] w1].
Qed.

(** Outside the data model: a [url] or a [book_title] that is a number
    has no [trim]; the first stops the program at once, the second after
    the Matcher has answered. *)
Example upsert_untyped :
  upsertUrlWithTags Scenario.cfg
    {| id := "1"; text := JStr ""; note := JStr ""; location := JNull;
       highlighted_at := JNull; url := JNum 7; tags := ["t"];
       book_title := JStr ""; book_author := JStr "";
       source_url := JStr ""; category := JStr "" |} = Throw TypeError
  /\ run services
       (upsertUrlWithTags Scenario.cfg
          {| id := "1"; text := JStr ""; note := JStr ""; location := JNull;
             highlighted_at := JNull; url := JStr "https://x.com"; tags := ["t"];
             book_title := JNum 7; book_author := JStr "";
             source_url := JStr ""; category := JStr "" |})
       {| readwise := []; notion := Scenario.empty_db |}
     = {| outcome := Err TypeError;
          world := {| readwise := []; notion := Scenario.empty_db |};
          trace := [Scenario.query_request] |}.
Proof. split; reflexivity. Qed.

(** C1.  When the Matcher finds a record [existing] for a highlight
    that passes the guards, the merged tags are the union of the
    existing and the new tags in first-seen order (the existing tags
    first, in their order, then the new tags that are not among them,
    each once; the existing list itself comes first when it holds no
    duplicate); after the query, an update that carries the merged tags
    is sent exactly when the merged list differs from the existing one
    in length or at some position, and nothing is sent otherwise; and
    the call returns [false] in both cases, unless the destination
    rejects the update. *)
Theorem upsert_existing (W : Type) (env : Env W) (cfg : Config)
  (h : NormalizedHighlight) (u t : string) (w : W) (existing : Api.Page) :
  passes_guards h u ->
  titleText h u = Ok t ->
  outcome (run env (findPageByUrl cfg u) w) = Ok (Some existing) ->
  merged (existingTags existing) (filter_Boolean (tags h))
  = union_first_seen (existingTags existing) (filter_Boolean (tags h))
  /\ (NoDup (existingTags existing) ->
      merged (existingTags existing) (filter_Boolean (tags h))
      = existingTags existing
        ++ first_occurrences
             (filter (fun x => negb (JsSet.has x (existingTags existing)))
                (filter_Boolean (tags h))))
  /\ (needUpdate (merged (existingTags existing) (filter_Boolean (tags h)))
        (existingTags existing) = true
      <-> List.length (merged (existingTags existing) (filter_Boolean (tags h)))
          <> List.length (existingTags existing)
          \/ exists i x,
               nth_error (merged (existingTags existing) (filter_Boolean (tags h))) i
               = Some x
               /\ nth_error (existingTags existing) i <> Some x)
  /\ trace (run env (upsertUrlWithTags cfg h) w)
     = Api.call (matcher_request cfg u)
       :: (if needUpdate (merged (existingTags existing) (filter_Boolean (tags h)))
                (existingTags existing)
           then [Api.call
                   (Api.pages_update (Api.id existing)
                      (write_properties h u t
                         (merged (existingTags existing) (filter_Boolean (tags h)))))]
           else [])
  /\ (outcome (run env (upsertUrlWithTags cfg h) w) = Ok false
      \/ needUpdate (merged (existingTags existing) (filter_Boolean (tags h)))
           (existingTags existing) = true
         /\ exists x,
              outcome (run env (upsertUrlWithTags cfg h) w) = Err x
              /\ fst (env _
                        (Api.pages_update (Api.id existing)
                           (write_properties h u t
                              (merged (existingTags existing)
                                 (filter_Boolean (tags h)))))
                        (world (run env (findPageByUrl cfg u) w)))
                 = Err x).
Proof.
  intros Hguards Htitle Hfound.
  split; [apply merged_union|].
  split; [apply needUpdate_merged_prefix|].
  split; [apply needUpdate_true|].
  rewrite (run_upsert env cfg h u w Hguards).
  unfold and_then. rewrite Hfound, Htitle, trace_findPageByUrl. cbn zeta.
  rewrite write_properties_eq.
  destruct (needUpdate _ _); cbn [outcome trace app].
  - split; [reflexivity|].
    destruct (fst (env _ _ _)) as [r|x]; [now left|].
    right. split; [reflexivity|]. now exists x.
  - split; [reflexivity | now left].
Qed.

Lemma upsert_existing_witness :
  passes_guards (Scenario.h1 ["t2"; "t1"; "t2"]) "https://x.com"
  /\ titleText (Scenario.h1 ["t2"; "t1"; "t2"]) "https://x.com" = Ok "Book A"
  /\ outcome (run services (findPageByUrl Scenario.cfg "https://x.com")
                {| readwise := []; notion := Scenario.db_a ["t1"] |})
     = Ok (Some (Scenario.page_a ["t1"]))
  /\ trace (run services (upsertUrlWithTags Scenario.cfg (Scenario.h1 ["t2"; "t1"; "t2"]))
              {| readwise := []; notion := Scenario.db_a ["t1"] |})
     = [ Scenario.query_request;
         Api.call (Api.pages_update "page-0" (Scenario.properties_a ["t1"; "t2"])) ]
  /\ outcome (run services (upsertUrlWithTags Scenario.cfg (Scenario.h1 ["t2"; "t1"; "t2"]))
                {| readwise := []; notion := Scenario.db_a ["t1"] |})
     = Ok false.
Proof.
  assert (Hguards : passes_guards (Scenario.h1 ["t2"; "t1"; "t2"]) "https://x.com")
    by (repeat split; discriminate).
  assert (Htitle : titleText (Scenario.h1 ["t2"; "t1"; "t2"]) "https://x.com" = Ok "Book A")
    by reflexivity.
  assert (Hfound : outcome (run services (findPageByUrl Scenario.cfg "https://x.com")
                              {| readwise := []; notion := Scenario.db_a ["t1"] |})
                   = Ok (Some (Scenario.page_a ["t1"])))
    by reflexivity.
  split; [exact Hguards|]. split; [exact Htitle|]. split; [exact Hfound|].
  destruct (upsert_existing World services Scenario.cfg _ _ _ _ _ Hguards Htitle Hfound)
    as (_ & _ & _ & Htrace & Hout).
  split; [exact Htrace|]. reflexivity.
Defined.

(** C10.  When the Matcher finds a record and the merged tags are the
    existing tags, position by position, the run sends the query and
    nothing else: no update, whatever title, author or category the
    incoming highlight carries, and the world is as the query left
    it. *)
Theorem upsert_unchanged (W : Type) (env : Env W) (cfg : Config)
  (h : NormalizedHighlight) (u : string) (w : W) (existing : Api.Page) :
  passes_guards h u ->
  outcome (run env (findPageByUrl cfg u) w) = Ok (Some existing) ->
  merged (existingTags existing) (filter_Boolean (tags h)) = existingTags existing ->
  trace (run env (upsertUrlWithTags cfg h) w) = [Api.call (matcher_request cfg u)]
  /\ existsb is_write (trace (run env (upsertUrlWithTags cfg h) w)) = false
  /\ world (run env (upsertUrlWithTags cfg h) w)
     = world (run env (findPageByUrl cfg u) w)
  /\ (forall t, titleText h u = Ok t ->
      outcome (run env (upsertUrlWithTags cfg h) w) = Ok false).
Proof.
  intros Hguards Hfound Hsame.
  apply needUpdate_false in Hsame.
  rewrite (run_upsert env cfg h u w Hguards).
  unfold and_then. rewrite Hfound, trace_findPageByUrl. cbn zeta. rewrite Hsame.
  destruct (titleText h u) as [t|e]; cbn; repeat split; intros; congruence.
Qed.

Lemma upsert_unchanged_witness :
  passes_guards
    {| id := "9"; text := JStr ""; note := JStr ""; location := JNull;
       highlighted_at := JNull; url := JStr "https://x.com"; tags := ["t1"];
       book_title := JStr "Another title"; book_author := JStr "Someone";
       source_url := JStr ""; category := JStr "articles" |} "https://x.com"
  /\ world (run services
              (upsertUrlWithTags Scenario.cfg
                 {| id := "9"; text := JStr ""; note := JStr ""; location := JNull;
                    highlighted_at := JNull; url := JStr "https://x.com"; tags := ["t1"];
                    book_title := JStr "Another title"; book_author := JStr "Someone";
                    source_url := JStr ""; category := JStr "articles" |})
              {| readwise := []; notion := Scenario.db_a ["t1"] |})
     = {| readwise := []; notion := Scenario.db_a ["t1"] |}
  /\ trace (run services
              (upsertUrlWithTags Scenario.cfg
                 {| id := "9"; text := JStr ""; note := JStr ""; location := JNull;
                    highlighted_at := JNull; url := JStr "https://x.com"; tags := ["t1"];
                    book_title := JStr "Another title"; book_author := JStr "Someone";
                    source_url := JStr ""; category := JStr "articles" |})
              {| readwise := []; notion := Scenario.db_a ["t1"] |})
     = [ Scenario.query_request ].
Proof.
  assert (Hguards :
            passes_guards
              {| id := "9"; text := JStr ""; note := JStr ""; location := JNull;
                 highlighted_at := JNull; url := JStr "https://x.com"; tags := ["t1"];
                 book_title := JStr "Another title"; book_author := JStr "Someone";
                 source_url := JStr ""; category := JStr "articles" |} "https://x.com")
    by (repeat split; discriminate).
  split; [exact Hguards|].
  destruct (upsert_unchanged World services Scenario.cfg _ _
              {| readwise := []; notion := Scenario.db_a ["t1"] |}
              (Scenario.page_a ["t1"]) Hguards eq_refl eq_refl)
    as (Htrace & _ & Hworld & _).
  split; [exact Hworld | exact Htrace].
Defined.






(** A blank title: the page is titled with the URL, and [Book] still
    carries the title as it came. *)
Example upsert_blank_title :
  baseProperties
    {| id := "1"; text := JStr ""; note := JStr ""; location := JNull;
       highlighted_at := JNull; url := JStr " https://x.com "; tags := ["t"];
       book_title := JStr "  "; book_author := JStr "";
       source_url := JStr ""; category := JStr "" |}
    "https://x.com" "https://x.com"
  = [ ("Title", Some (Api.title "https://x.com"));
      ("URL", Some (Api.url "https://x.com"));
      ("Source", None);
      ("Book", Some (Api.rich_text (JStr "  ")));
      ("Author", None) ]
  /\ titleText
       {| id := "1"; text := JStr ""; note := JStr ""; location := JNull;
          highlighted_at := JNull; url := JStr " https://x.com "; tags := ["t"];
          book_title := JStr "  "; book_author := JStr "";
          source_url := JStr ""; category := JStr "" |}
       "https://x.com"
     = Ok "https://x.com".
Proof. split; reflexivity. Qed.

(* ===================================================================== *)
(** *** The destination model *)
(* ===================================================================== *)

Section Destination.

Implicit Types (props : list (string * Api.PropertyValue)) (k : string)
  (v : Api.PropertyValue) (db : Notion.Db) (page : Api.Page).

Lemma lookup_set_eq k v props : Notion.lookup k (Notion.set k v props) = Some v.
Proof.
  unfold Notion.lookup.
  induction props as [|[k' v'] props IH]; cbn.
  - now rewrite String.eqb_refl.
  - destruct (k' =? k) eqn:E; cbn.
    + now rewrite String.eqb_refl.
    + now rewrite E.
Qed.

Lemma lookup_set_ne k k' v props :
  (k' =? k) = false -> Notion.lookup k (Notion.set k' v props) = Notion.lookup k props.
Proof.
  intros Hne. unfold Notion.lookup.
  induction props as [|[k0 v0] props IH]; cbn.
  - now rewrite Hne.
  - destruct (k0 =? k') eqn:E; cbn.
    + apply String.eqb_eq in E. subst k0. now rewrite Hne.
    + destruct (k0 =? k); [reflexivity | exact IH].
Qed.

Lemma names_toMultiSelect (l : list string) : map Api.name (toMultiSelect l) = l.
Proof.
  unfold toMultiSelect. rewrite map_map. cbn. apply map_id.
Qed.

(** What a page holds under [URL] and [Tags] once the properties of a
    write have been patched into it. *)
Lemma patch_write props (h : NormalizedHighlight) (u t : string) (l : list string) :
  Notion.lookup "URL" (Notion.patch props (write_properties h u t l)) = Some (Api.url u)
  /\ Notion.lookup "Tags" (Notion.patch props (write_properties h u t l))
     = Some (Api.multi_select (toMultiSelect (first_occurrences l))).
Proof.
  unfold write_properties, baseProperties, rich_text_or_undefined.
  destruct (Js.Boolean (category h)), (Js.Boolean (book_title h)),
    (Js.Boolean (book_author h));
    cbn [app Notion.patch Notion.stored];
    rewrite names_toMultiSelect;
    (split;
     [ repeat (rewrite lookup_set_ne by reflexivity); apply lookup_set_eq
     | apply lookup_set_eq ]).
Qed.

Lemma existingTags_lookup page props :
  Api.properties page = Some props ->
  existingTags page
  = match Notion.lookup "Tags" props with
    | Some (Api.multi_select options) => map Api.name options
    | _ => []
    end.
Proof.
  intros Hp. unfold existingTags, Notion.lookup. rewrite Hp.
  now destruct (find _ props) as [[k [c|c|c|o]]|].
Qed.

(** A page written by the Upserter answers to the URL it was written
    for, and its tags are those of the request, each once. *)
Lemma written_page page (h : NormalizedHighlight) (u t : string) (l : list string) :
  Notion.url_equals "URL" u (Notion.patch_page (write_properties h u t l) page) = true
  /\ existingTags (Notion.patch_page (write_properties h u t l) page)
     = first_occurrences l.
Proof.
  destruct (patch_write
              (match Api.properties page with Some props => props | None => [] end)
              h u t l) as [Hurl Htags].
  split.
  - unfold Notion.url_equals, Notion.patch_page. cbn [Api.properties].
    rewrite Hurl. apply String.eqb_refl.
  - erewrite existingTags_lookup by (unfold Notion.patch_page; reflexivity).
    rewrite Htags. apply names_toMultiSelect.
Qed.

Lemma firstn_1_filter {A} (f : A -> bool) (l : list A) :
  firstn 1 (filter f l) = match find f l with Some a => [a] | None => [] end.
Proof.
  induction l as [|a l IH]; [reflexivity|].
  cbn [filter find]. destruct (f a); [reflexivity | exact IH].
Qed.

(** The Matcher against the model: the first page with this URL. *)
Lemma services_findPageByUrl (cfg : Config) (u : string) (w : World) :
  run services (findPageByUrl cfg u) w
  = {| outcome := Ok (find (Notion.url_equals "URL" u) (Notion.pages (notion w)));
       world := w;
       trace := [Api.call (matcher_request cfg u)] |}.
Proof.
  rewrite run_findPageByUrl. cbn. rewrite firstn_1_filter.
  now destruct (find _ _).
Qed.

Lemma find_split {A} (f : A -> bool) (l : list A) (a : A) :
  find f l = Some a ->
  exists l1 l2, l = l1 ++ a :: l2 /\ forallb (fun b => negb (f b)) l1 = true /\ f a = true.
Proof.
  induction l as [|b l IH]; [discriminate|]. cbn [find].
  destruct (f b) eqn:E.
  - intros [= ->]. now exists [], l.
  - intros H. destruct (IH H) as (l1 & l2 & -> & H1 & H2).
    exists (b :: l1), l2. cbn. now rewrite E.
Qed.

Lemma find_first {A} (f : A -> bool) (l1 l2 : list A) (a : A) :
  forallb (fun b => negb (f b)) l1 = true -> f a = true ->
  find f (l1 ++ a :: l2) = Some a.
Proof.
  intros H1 H2. induction l1 as [|b l1 IH]; cbn.
  - now rewrite H2.
  - cbn in H1. apply andb_true_iff in H1 as [Hb H1].
    apply negb_true_iff in Hb. rewrite Hb. now apply IH.
Qed.

Lemma find_last {A} (f : A -> bool) (l : list A) (a : A) :
  find f l = None -> f a = true -> find f (l ++ [a]) = Some a.
Proof.
  intros H1 H2. induction l as [|b l IH]; cbn in *.
  - now rewrite H2.
  - destruct (f b); [discriminate | now apply IH].
Qed.

(** In a database whose identifiers are distinct, an update reaches
    the page it names and no other. *)
Lemma update_pages_split (request : Api.Properties) (l1 l2 : list Api.Page) page :
  NoDup (map Api.id (l1 ++ page :: l2)) ->
  Notion.update_pages (Api.id page) request (l1 ++ page :: l2)
  = Some (l1 ++ Notion.patch_page request page :: l2).
Proof.
  induction l1 as [|p l1 IH]; cbn; intros Hnd.
  - now rewrite String.eqb_refl.
  - inversion Hnd as [|? ? Hnin Hnd']; subst.
    destruct (String.eqb_spec (Api.id p) (Api.id page)) as [Heq|Hne].
    + exfalso. apply Hnin. rewrite Heq, map_app. apply in_or_app. right. now left.
    + now rewrite IH.
Qed.

End Destination.

(* ===================================================================== *)
(** *** Running the Upserter twice *)
(* ===================================================================== *)

Section Twice.

Variable cfg : Config.

Implicit Types (h : NormalizedHighlight) (u t : string) (w : World).

Lemma services_update (page_id : string) (request : Api.Properties) w :
  services _ (Api.pages_update page_id request) w
  = (fst (Notion.update page_id request (notion w)),
     {| readwise := readwise w;
        notion := snd (Notion.update page_id request (notion w)) |}).
Proof. cbn. now destruct (Notion.update page_id request (notion w)). Qed.

(** The run whose [book_title] cannot be trimmed stops after the query. *)
Lemma services_upsert_title_error h u w (e : Exn) :
  passes_guards h u ->
  titleText h u = Err e ->
  run services (upsertUrlWithTags cfg h) w
  = {| outcome := Err e; world := w; trace := [Api.call (matcher_request cfg u)] |}.
Proof.
  intros Hguards Htitle.
  rewrite (run_upsert services cfg h u w Hguards), services_findPageByUrl.
  unfold and_then. cbn [outcome world trace]. now rewrite Htitle.
Qed.

(** A record that already holds the tags of the highlight is left alone. *)
Lemma services_upsert_settled h u w (existing : Api.Page) :
  passes_guards h u ->
  find (Notion.url_equals "URL" u) (Notion.pages (notion w)) = Some existing ->
  merged (existingTags existing) (filter_Boolean (tags h)) = existingTags existing ->
  world (run services (upsertUrlWithTags cfg h) w) = w
  /\ trace (run services (upsertUrlWithTags cfg h) w)
     = [Api.call (matcher_request cfg u)].
Proof.
  intros Hguards Hfound Hsame. apply needUpdate_false in Hsame.
  rewrite (run_upsert services cfg h u w Hguards), services_findPageByUrl.
  unfold and_then. cbn [outcome world trace]. rewrite Hfound. cbn zeta.
  rewrite Hsame. now destruct (titleText h u).
Qed.

(** After a run that got as far as writing or finding nothing to
    write, the database holds a record for the URL, and this record
    holds every tag of the highlight, each tag once. *)
Lemma services_upsert_first h u t w :
  passes_guards h u ->
  titleText h u = Ok t ->
  NoDup (map Api.id (Notion.pages (notion w))) ->
  exists existing,
    find (Notion.url_equals "URL" u)
      (Notion.pages (notion (world (run services (upsertUrlWithTags cfg h) w))))
    = Some existing
    /\ NoDup (existingTags existing)
    /\ (forall x, In x (filter_Boolean (tags h)) -> In x (existingTags existing)).
Proof.
  intros Hguards Htitle Hids.
  rewrite (run_upsert services cfg h u w Hguards), services_findPageByUrl.
  unfold and_then. cbn [outcome world trace]. rewrite Htitle.
  destruct (find (Notion.url_equals "URL" u) (Notion.pages (notion w)))
    as [existing|] eqn:Hfound; cbn zeta.
  - destruct (needUpdate _ _) eqn:Hup; cbn [world].
    + rewrite write_properties_eq, services_update. cbn [snd notion].
      destruct (find_split _ _ _ Hfound) as (l1 & l2 & Hpages & Hl1 & Hmatch).
      unfold Notion.update. rewrite Hpages in Hids |- *.
      rewrite update_pages_split by exact Hids. cbn [snd Notion.pages].
      destruct (written_page existing h u t
                  (merged (existingTags existing) (filter_Boolean (tags h))))
        as [Hurl Htags].
      rewrite (first_occurrences_NoDup _ (NoDup_merged _ _)) in Htags.
      eexists. split; [apply find_first; [exact Hl1 | exact Hurl]|].
      rewrite Htags. split; [apply NoDup_merged|].
      intros x Hx. apply In_merged. now right.
    + apply needUpdate_false in Hup.
      exists existing. split; [exact Hfound|]. rewrite <- Hup.
      split; [apply NoDup_merged|]. intros x Hx. apply In_merged. now right.
  - rewrite write_properties_eq. cbn [services snd world notion Notion.create Notion.pages].
    destruct (written_page
                {| Api.id := Notion.fresh_id (notion w); Api.properties := None |}
                h u t (filter_Boolean (tags h))) as [Hurl Htags].
    eexists. split; [apply find_last; [exact Hfound | exact Hurl]|].
    unfold Notion.patch_page in Htags. cbn [Api.properties Api.id] in Htags.
    rewrite Htags. split; [apply NoDup_first_occurrences|].
    intros x Hx. now apply In_first_occurrences.
Qed.

End Twice.

Lemma passes_guards_unique (h : NormalizedHighlight) (u u' : string) :
  passes_guards h u -> passes_guards h u' -> u' = u.
Proof. intros (H & _) (H' & _). congruence. Qed.

(** C3.  Against a destination that nothing else changes and whose
    records have distinct identifiers, a second run of the Upserter on
    the same highlight leaves the destination exactly as the first run
    left it and writes nothing: no record is created and none is
    updated.  Indeed, once the first run has gone through, the Matcher
    finds a record whose tags hold no duplicate and already equal the
    merged tags the second run computes. *)
Theorem upsert_twice (cfg : Config) (h : NormalizedHighlight) (w : World) :
  NoDup (map Api.id (Notion.pages (notion w))) ->
  world (run services (upsertUrlWithTags cfg h)
           (world (run services (upsertUrlWithTags cfg h) w)))
  = world (run services (upsertUrlWithTags cfg h) w)
  /\ existsb is_write
       (trace (run services (upsertUrlWithTags cfg h)
                 (world (run services (upsertUrlWithTags cfg h) w)))) = false
  /\ (forall u t,
        passes_guards h u -> titleText h u = Ok t ->
        exists existing,
          outcome (run services (findPageByUrl cfg u)
                     (world (run services (upsertUrlWithTags cfg h) w)))
          = Ok (Some existing)
          /\ NoDup (existingTags existing)
          /\ merged (existingTags existing) (filter_Boolean (tags h))
             = existingTags existing).
Proof.
  intros Hids.
  destruct (upsert_guard_cases cfg h) as [(e & _ & -> & Hno)|[[-> Hno]|[u Hguards]]].
  { cbn. repeat split. intros u t Hguards. now destruct (Hno u). }
  { cbn. repeat split. intros u t Hguards. now destruct (Hno u). }
  destruct (titleText h u) as [t|e] eqn:Htitle.
  - destruct (services_upsert_first cfg h u t w Hguards Htitle Hids)
      as (existing & Hfound & Hnd & Hknown).
    pose proof (merged_known _ _ Hnd Hknown) as Hsame.
    destruct (services_upsert_settled cfg h u _ existing Hguards Hfound Hsame)
      as [Hworld Htrace].
    rewrite Hworld, Htrace. repeat split.
    intros u' t' Hguards' _.
    rewrite (passes_guards_unique h u u' Hguards Hguards').
    exists existing. rewrite services_findPageByUrl. cbn [outcome].
    rewrite Hfound. repeat split; assumption.
  - rewrite (services_upsert_title_error cfg h u w e Hguards Htitle). cbn [world].
    rewrite (services_upsert_title_error cfg h u w e Hguards Htitle). cbn.
    repeat split. intros u' t' Hguards' Ht'.
    rewrite (passes_guards_unique h u u' Hguards Hguards') in Ht'. congruence.
Qed.

Lemma upsert_twice_witness :
  world (run services (upsertUrlWithTags Scenario.cfg (Scenario.h1 ["t2"; "t1"; "t2"]))
           (world (run services
                     (upsertUrlWithTags Scenario.cfg (Scenario.h1 ["t2"; "t1"; "t2"]))
                     {| readwise := []; notion := Scenario.db_a ["t1"] |})))
  = {| readwise := []; notion := Scenario.db_a ["t1"; "t2"] |}
  /\ existsb is_write
       (trace (run services
                 (upsertUrlWithTags Scenario.cfg (Scenario.h1 ["t2"; "t1"; "t2"]))
                 (world (run services
                           (upsertUrlWithTags Scenario.cfg (Scenario.h1 ["t2"; "t1"; "t2"]))
                           {| readwise := []; notion := Scenario.db_a ["t1"] |}))))
     = false.
Proof.
  assert (Hids : NoDup (map Api.id (Notion.pages (Scenario.db_a ["t1"]))))
    by (repeat constructor; intros []).
  destruct (upsert_twice Scenario.cfg (Scenario.h1 ["t2"; "t1"; "t2"])
              {| readwise := []; notion := Scenario.db_a ["t1"] |} Hids)
    as (Hworld & Htrace & _).
  split; [exact Hworld | exact Htrace].
Defined.

(** The same on an empty database: the first run creates the record,
    with each tag once, and the second finds it. *)
Example upsert_twice_created :
  world (run services (upsertUrlWithTags Scenario.cfg (Scenario.h1 ["t1"; "t1"]))
           {| readwise := []; notion := Scenario.empty_db |})
  = {| readwise := []; notion := Scenario.db_a ["t1"] |}
  /\ run services (upsertUrlWithTags Scenario.cfg (Scenario.h1 ["t1"; "t1"]))
       {| readwise := []; notion := Scenario.db_a ["t1"] |}
     = {| outcome := Ok false;
          world := {| readwise := []; notion := Scenario.db_a ["t1"] |};
          trace := [Scenario.query_request] |}.
Proof. split; reflexivity. Qed.

(* ===================================================================== *)
(** *** Orchestrator *)
(* ===================================================================== *)

Section Orchestrator.

Variable cfg : Config.

Implicit Types (h : NormalizedHighlight) (w : World) (page : JsVal).

Lemma fetch_params_app (t1 t2 : list Api.Call) :
  fetch_params (t1 ++ t2) = fetch_params t1 ++ fetch_params t2.
Proof.
  induction t1 as [|[X r] t1 IH]; [reflexivity|].
  destruct r; cbn; now rewrite IH.
Qed.

Lemma update_pages_found (request : Api.Properties) (l : list Api.Page) (p : Api.Page) :
  In p l -> exists l', Notion.update_pages (Api.id p) request l = Some l'.
Proof.
  induction l as [|q l IH]; [intros []|]. intros Hin. cbn.
  destruct (Api.id q =? Api.id p) eqn:E; [eexists; reflexivity|].
  destruct Hin as [->|Hin]; [now rewrite String.eqb_refl in E|].
  destruct (IH Hin) as [l' ->]. eexists; reflexivity.
Qed.

Lemma is_typed_spec h :
  is_typed h = true ->
  (exists u, call_trim (Js.or (url h) (JStr "")) = Ok u)
  /\ forall u, exists t, titleText h u = Ok t.
Proof.
  unfold is_typed. intros H. apply andb_true_iff in H as [Hurl Htitle]. split.
  - unfold Js.or. destruct (url h) as [| |b|n| |s|l|fs]; cbn in *;
      try discriminate; try (eexists; reflexivity).
    + apply negb_true_iff in Hurl. rewrite Hurl. eexists; reflexivity.
    + apply negb_true_iff in Hurl. rewrite Hurl. eexists; reflexivity.
    + destruct (negb (s =? "")); eexists; reflexivity.
  - intros u. unfold titleText.
    destruct (book_title h) as [| |b|n| |s|l|fs]; cbn in *;
      try discriminate; eexists; reflexivity.
Qed.

(** Against the model, the Upserter returns on every typed highlight,
    and asks nothing of Readwise. *)
Lemma services_upsert_returns h w :
  is_typed h = true ->
  exists b,
    outcome (run services (upsertUrlWithTags cfg h) w) = Ok b
    /\ readwise (world (run services (upsertUrlWithTags cfg h) w)) = readwise w
    /\ fetch_params (trace (run services (upsertUrlWithTags cfg h) w)) = [].
Proof.
  intros Htyped. destruct (is_typed_spec h Htyped) as [[u0 Hu0] Htitle].
  destruct (upsert_guard_cases cfg h) as [(e & He & _)|[[-> _]|[u Hguards]]].
  { congruence. }
  { now exists false. }
  destruct (Htitle u) as [t Ht].
  rewrite (run_upsert services cfg h u w Hguards), services_findPageByUrl.
  unfold and_then. cbn [outcome world trace]. rewrite Ht.
  destruct (find (Notion.url_equals "URL" u) (Notion.pages (notion w)))
    as [existing|] eqn:Hfound; cbn zeta.
  - destruct (needUpdate _ _); [|now exists false].
    rewrite services_update. cbn [fst snd outcome world trace readwise].
    destruct (update_pages_found
                (with_property (baseProperties h u t) "Tags"
                   (Some (Api.multi_select
                            (toMultiSelect
                               (merged (existingTags existing)
                                  (filter_Boolean (tags h)))))))
                (Notion.pages (notion w)) existing) as [l' Hl'].
    { destruct (find_split _ _ _ Hfound) as (l1 & l2 & -> & _).
      apply in_or_app. right. now left. }
    unfold Notion.update. rewrite Hl'. now exists false.
  - cbn. eexists. repeat split.
Qed.

(** One turn of the inner loop of [main] on a typed highlight. *)
Lemma services_upsert_and_sleep h (n : nat) w :
  is_typed h = true ->
  exists n',
    outcome (run services (upsert_and_sleep cfg n h) w) = Ok n'
    /\ readwise (world (run services (upsert_and_sleep cfg n h) w)) = readwise w
    /\ fetch_params (trace (run services (upsert_and_sleep cfg n h) w)) = [].
Proof.
  intros Hh. destruct (services_upsert_returns h w Hh) as (b & Hout & Hrw & Hfp).
  unfold upsert_and_sleep. rewrite run_bind. unfold and_then. rewrite Hout.
  cbn [outcome world trace]. rewrite run_bind, run_await. unfold and_then.
  cbn [fst snd services outcome world trace run].
  eexists. repeat split; [exact Hrw|].
  rewrite fetch_params_app, Hfp. reflexivity.
Qed.

(** The inner loop of [main] on typed highlights. *)
Lemma services_for_of_returns (hs : list NormalizedHighlight) :
  forallb is_typed hs = true ->
  forall (n : nat) w,
  exists n',
    outcome (run services (for_of_async hs (upsert_and_sleep cfg) n) w) = Ok n'
    /\ readwise (world (run services (for_of_async hs (upsert_and_sleep cfg) n) w))
       = readwise w
    /\ fetch_params (trace (run services (for_of_async hs (upsert_and_sleep cfg) n) w))
       = [].
Proof.
  induction hs as [|h hs IH]; intros Hall n w.
  - now exists n.
  - cbn in Hall. apply andb_true_iff in Hall as [Hh Hhs].
    cbn [for_of_async]. rewrite run_bind.
    destruct (services_upsert_and_sleep h n w Hh) as (n1 & Hout & Hrw & Hfp).
    unfold and_then. rewrite Hout. cbn [outcome world trace].
    destruct (IH Hhs n1 (world (run services (upsert_and_sleep cfg n h) w)))
      as (n' & Hout' & Hrw' & Hfp').
    exists n'. repeat split.
    + exact Hout'.
    + now rewrite Hrw'.
    + now rewrite fetch_params_app, Hfp, Hfp'.
Qed.

(** The [params] of the request [fetchReadwisePage] sends. *)
Lemma services_fetch (pageCursor : JsVal) page (rs : list JsVal) (db : Notion.Db) :
  run services (fetchReadwisePage cfg pageCursor) {| readwise := page :: rs; notion := db |}
  = {| outcome := Ok page;
       world := {| readwise := rs; notion := db |};
       trace := [Api.call
                   (Api.axios_get "https://readwise.io/api/v2/export/"
                      [("Authorization", ("Token " ++ READWISE_TOKEN cfg)%string)]
                      (if Js.Boolean pageCursor then [("pageCursor", pageCursor)] else [])
                      30000)] |}.
Proof.
  unfold fetchReadwisePage. rewrite run_bind, run_await. unfold and_then. cbn.
  now destruct (Js.Boolean pageCursor).
Qed.

(** One turn of [while (true)] on a well-formed page. *)
Lemma services_main_body (st : Loop) page (rs : list JsVal) (db : Notion.Db) :
  is_export_page page = true ->
  exists fetched created,
    outcome (run services (main_body cfg st) {| readwise := page :: rs; notion := db |})
    = Ok (if has_next page
          then inl {| cursor := Js.member page "nextPageCursor";
                      totalFetched := fetched; totalCreated := created |}
          else inr {| cursor := cursor st;
                      totalFetched := fetched; totalCreated := created |})
    /\ readwise (world (run services (main_body cfg st)
                          {| readwise := page :: rs; notion := db |})) = rs
    /\ fetch_params (trace (run services (main_body cfg st)
                              {| readwise := page :: rs; notion := db |}))
       = [if Js.Boolean (cursor st) then [("pageCursor", cursor st)] else []].
Proof.
  unfold is_export_page. intros Hpage.
  apply andb_true_iff in Hpage as [Hobj Hres]. apply negb_true_iff in Hobj.
  destruct (normalizeHighlights (Js.member page "results")) as [hs|e] eqn:Hnorm;
    [|discriminate].
  remember (run services (main_body cfg st) {| readwise := page :: rs; notion := db |})
    as R eqn:HR.
  unfold main_body in HR. rewrite run_bind, services_fetch in HR.
  unfold and_then in HR. cbn [outcome world trace] in HR.
  unfold get in HR. rewrite Hobj in HR.
  rewrite run_bind, run_lift in HR. unfold and_then in HR.
  cbn [outcome world trace] in HR. rewrite Hnorm in HR.
  rewrite run_bind, run_lift in HR. unfold and_then in HR.
  cbn [outcome world trace] in HR. rewrite run_bind in HR.
  destruct (services_for_of_returns hs Hres (totalCreated st)
              {| readwise := rs; notion := db |}) as (n' & Hout & Hrw & Hfp).
  unfold and_then in HR. rewrite Hout in HR. cbn [outcome world trace] in HR.
  rewrite run_bind, run_lift in HR. unfold and_then in HR.
  cbn [outcome world trace app] in HR.
  exists (totalFetched st + List.length hs), n'.
  unfold has_next. subst R.
  destruct (Js.Boolean (Js.member page "nextPageCursor"));
    cbn [negb run outcome world trace]; rewrite ?app_nil_r;
    (repeat split; [exact Hrw | cbn; now rewrite Hfp]).
Qed.

(** Against the model, whatever the highlight and however the run
    ends, the Upserter asks nothing of Readwise. *)
Lemma services_upsert_no_fetch h w :
  readwise (world (run services (upsertUrlWithTags cfg h) w)) = readwise w
  /\ fetch_params (trace (run services (upsertUrlWithTags cfg h) w)) = [].
Proof.
  destruct (upsert_guard_cases cfg h) as [(e & _ & -> & _)|[[-> _]|[u Hguards]]];
    [now split | now split |].
  rewrite (run_upsert services cfg h u w Hguards), services_findPageByUrl.
  unfold and_then. cbn [outcome world trace].
  destruct (titleText h u) as [t|e]; [|now split].
  destruct (find (Notion.url_equals "URL" u) (Notion.pages (notion w)))
    as [existing|]; cbn zeta.
  - destruct (needUpdate _ _); [|now split].
    rewrite services_update. now split.
  - now split.
Qed.

Lemma services_upsert_and_sleep_no_fetch h (n : nat) w :
  readwise (world (run services (upsert_and_sleep cfg n h) w)) = readwise w
  /\ fetch_params (trace (run services (upsert_and_sleep cfg n h) w)) = [].
Proof.
  destruct (services_upsert_no_fetch h w) as [Hrw Hfp].
  unfold upsert_and_sleep. rewrite run_bind. unfold and_then.
  destruct (outcome (run services (upsertUrlWithTags cfg h) w)) as [b|e];
    cbn [outcome world trace]; [|now split].
  rewrite run_bind, run_await. unfold and_then.
  cbn [fst snd services outcome world trace run].
  split; [exact Hrw|]. rewrite fetch_params_app, Hfp. reflexivity.
Qed.

Lemma services_for_of_no_fetch (hs : list NormalizedHighlight) : forall (n : nat) w,
  readwise (world (run services (for_of_async hs (upsert_and_sleep cfg) n) w))
  = readwise w
  /\ fetch_params (trace (run services (for_of_async hs (upsert_and_sleep cfg) n) w))
     = [].
Proof.
  induction hs as [|h hs IH]; intros n w; [now split|].
  cbn [for_of_async]. rewrite run_bind.
  destruct (services_upsert_and_sleep_no_fetch h n w) as [Hrw Hfp].
  unfold and_then.
  destruct (outcome (run services (upsert_and_sleep cfg n h) w)) as [n1|e];
    cbn [outcome world trace]; [|now split].
  destruct (IH n1 (world (run services (upsert_and_sleep cfg n h) w))) as [Hrw' Hfp'].
  split; [now rewrite Hrw' | now rewrite fetch_params_app, Hfp, Hfp'].
Qed.

(** One turn of [while (true)] on any page: one request to Readwise,
    with the cursor of the turn; the turn goes on to a next turn only
    with the [nextPageCursor] of a page that has one, and reaches
    [break] only on a page that has none. *)
Lemma services_main_body_any (st : Loop) page (rs : list JsVal) (db : Notion.Db) :
  readwise (world (run services (main_body cfg st)
                     {| readwise := page :: rs; notion := db |})) = rs
  /\ fetch_params (trace (run services (main_body cfg st)
                            {| readwise := page :: rs; notion := db |}))
     = [if Js.Boolean (cursor st) then [("pageCursor", cursor st)] else []]
  /\ match outcome (run services (main_body cfg st)
                      {| readwise := page :: rs; notion := db |}) with
     | Ok (inl st') =>
         has_next page = true /\ cursor st' = Js.member page "nextPageCursor"
     | Ok (inr _) => has_next page = false
     | Err _ => True
     end.
Proof.
  remember (run services (main_body cfg st) {| readwise := page :: rs; notion := db |})
    as R eqn:HR.
  unfold main_body in HR. rewrite run_bind, services_fetch in HR.
  unfold and_then in HR. cbn [outcome world trace] in HR.
  unfold get in HR. destruct (Js.nullish page); [now subst R|].
  rewrite run_bind, run_lift in HR. unfold and_then in HR.
  cbn [outcome world trace] in HR.
  destruct (normalizeHighlights (Js.member page "results")) as [hs|e];
    rewrite run_bind, run_lift in HR; unfold and_then in HR;
    cbn [outcome world trace] in HR; [|now subst R].
  rewrite run_bind in HR.
  destruct (services_for_of_no_fetch hs (totalCreated st)
              {| readwise := rs; notion := db |}) as [Hrw Hfp].
  unfold and_then in HR.
  destruct (outcome (run services (for_of_async hs (upsert_and_sleep cfg) (totalCreated st))
                       {| readwise := rs; notion := db |})) as [n'|e];
    cbn [outcome world trace] in HR.
  2:{ subst R. cbn [outcome world trace app fetch_params]. now rewrite Hfp. }
  rewrite run_bind, run_lift in HR. unfold and_then in HR.
  cbn [outcome world trace app] in HR. subst R. unfold has_next.
  destruct (Js.Boolean (Js.member page "nextPageCursor"));
    cbn [negb run outcome world trace cursor]; rewrite ?app_nil_r;
    (repeat split; [exact Hrw | cbn; now rewrite Hfp]).
Qed.

Lemma world_eta w : w = {| readwise := readwise w; notion := notion w |}.
Proof. now destruct w. Qed.

(** The loop on the pages Readwise serves: it goes through the pages
    that announce a next page and stops at the first that does not. *)
Lemma services_while_true (pre : list JsVal) :
  forall (st : Loop) (last : JsVal) (rest : list JsVal) (db : Notion.Db) (fuel : nat),
  forallb (fun page => is_export_page page && has_next page) pre = true ->
  is_export_page last = true ->
  has_next last = false ->
  List.length pre < fuel ->
  exists st',
    outcome (run services (while_true cfg fuel st)
               {| readwise := pre ++ last :: rest; notion := db |}) = Ok (Some st')
    /\ readwise (world (run services (while_true cfg fuel st)
                          {| readwise := pre ++ last :: rest; notion := db |})) = rest
    /\ fetch_params (trace (run services (while_true cfg fuel st)
                              {| readwise := pre ++ last :: rest; notion := db |}))
       = (if Js.Boolean (cursor st) then [("pageCursor", cursor st)] else [])
         :: map next_params pre.
Proof.
  induction pre as [|page pre IH]; intros st last rest db fuel Hpre Hlast Hend Hfuel;
    (destruct fuel as [|fuel]; [cbn in Hfuel; lia|]);
    cbn [while_true app]; rewrite run_bind; unfold and_then.
  - destruct (services_main_body st last rest db Hlast)
      as (fetched & created & Hout & Hrw & Hfp).
    rewrite Hout, Hend. cbn [outcome world trace run].
    eexists. repeat split; [exact Hrw|].
    rewrite app_nil_r. exact Hfp.
  - cbn in Hpre. apply andb_true_iff in Hpre as [Hpage Hpre].
    apply andb_true_iff in Hpage as [Hpage Hnext].
    destruct (services_main_body st page (pre ++ last :: rest) db Hpage)
      as (fetched & created & Hout & Hrw & Hfp).
    rewrite Hout, Hnext. cbn [outcome world trace].
    rewrite (world_eta (world (run services (main_body cfg st) _))), Hrw.
    destruct (IH {| cursor := Js.member page "nextPageCursor";
                    totalFetched := fetched; totalCreated := created |}
                last rest
                (notion (world (run services (main_body cfg st)
                                  {| readwise := page :: pre ++ last :: rest;
                                     notion := db |})))
                fuel Hpre Hlast Hend ltac:(cbn in Hfuel; lia))
      as (st' & Hout' & Hrw' & Hfp').
    exists st'. repeat split; [exact Hout' | exact Hrw' |].
    rewrite fetch_params_app, Hfp, Hfp'. cbn [cursor app map].
    unfold has_next in Hnext. rewrite Hnext. reflexivity.
Qed.

(** The loop on any pages: it is over by the page that announces no
    next page, at the latest, and has by then sent an initial segment
    of the chain of requests. *)
Lemma services_while_true_any (pre : list JsVal) :
  forall (st : Loop) (last : JsVal) (rest : list JsVal) (db : Notion.Db) (fuel : nat),
  forallb has_next pre = true ->
  has_next last = false ->
  List.length pre < fuel ->
  outcome (run services (while_true cfg fuel st)
             {| readwise := pre ++ last :: rest; notion := db |}) <> Ok None
  /\ exists n,
       fetch_params (trace (run services (while_true cfg fuel st)
                              {| readwise := pre ++ last :: rest; notion := db |}))
       = firstn (S n)
           ((if Js.Boolean (cursor st) then [("pageCursor", cursor st)] else [])
            :: map next_params pre).
Proof.
  induction pre as [|page pre IH]; intros st last rest db fuel Hpre Hend Hfuel;
    (destruct fuel as [|fuel]; [cbn in Hfuel; lia|]);
    cbn [while_true app]; rewrite run_bind; unfold and_then.
  - destruct (services_main_body_any st last rest db) as (Hrw & Hfp & Hout).
    destruct (outcome (run services (main_body cfg st) _)) as [[st'|st']|e];
      cbn [outcome world trace run].
    + destruct Hout as [Hnext _]. congruence.
    + split; [discriminate|]. exists 0. now rewrite app_nil_r, Hfp.
    + split; [discriminate|]. exists 0. now rewrite Hfp.
  - cbn in Hpre. apply andb_true_iff in Hpre as [Hnext Hpre].
    destruct (services_main_body_any st page (pre ++ last :: rest) db)
      as (Hrw & Hfp & Hout).
    destruct (outcome (run services (main_body cfg st) _)) as [[st'|st']|e];
      cbn [outcome world trace].
    + destruct Hout as [_ Hcursor].
      rewrite (world_eta (world (run services (main_body cfg st) _))), Hrw.
      destruct (IH st' last rest
                  (notion (world (run services (main_body cfg st)
                                    {| readwise := page :: pre ++ last :: rest;
                                       notion := db |})))
                  fuel Hpre Hend ltac:(cbn in Hfuel; lia))
        as (Hout' & n & Hfp').
      split; [exact Hout'|]. exists (S n).
      rewrite fetch_params_app, Hfp, Hfp', Hcursor.
      unfold has_next in Hnext. rewrite Hnext. reflexivity.
    + congruence.
    + split; [discriminate|]. exists 0. now rewrite Hfp.
Qed.

End Orchestrator.

(** C8.  When Readwise serves pages that each announce a next page and
    then a page whose [nextPageCursor] is falsy, the loop of [main] is
    over after it has requested that page, at the latest: with enough
    fuel for these pages, [main] returns or throws.  The requests it
    has sent to Readwise are an initial segment of the chain in which
    the first request has no [pageCursor] parameter and each later one
    has for [pageCursor] the [nextPageCursor] of the page before.  When
    moreover the pages are well formed, so that nothing throws, [main]
    returns its two counters after the whole chain: one request per
    page up to the one without a next page, and none for the pages that
    Readwise might serve after it. *)
Theorem main_pagination (cfg : Config) (pre : list JsVal) (last : JsVal)
  (rest : list JsVal) (db : Notion.Db) (fuel : nat) :
  forallb has_next pre = true ->
  has_next last = false ->
  List.length pre < fuel ->
  outcome (run services (main cfg fuel)
             {| readwise := pre ++ last :: rest; notion := db |}) <> Ok None
  /\ (exists n,
        fetch_params (trace (run services (main cfg fuel)
                               {| readwise := pre ++ last :: rest; notion := db |}))
        = firstn (S n) ([] :: map next_params pre))
  /\ (forallb is_export_page (pre ++ [last]) = true ->
      exists fetched created,
        outcome (run services (main cfg fuel)
                   {| readwise := pre ++ last :: rest; notion := db |})
        = Ok (Some (fetched, created))
        /\ fetch_params (trace (run services (main cfg fuel)
                                  {| readwise := pre ++ last :: rest; notion := db |}))
           = [] :: map next_params pre
        /\ List.length
             (fetch_params (trace (run services (main cfg fuel)
                                     {| readwise := pre ++ last :: rest; notion := db |})))
           = S (List.length pre)
        /\ readwise (world (run services (main cfg fuel)
                              {| readwise := pre ++ last :: rest; notion := db |}))
           = rest).
Proof.
  intros Hpre Hend Hfuel.
  destruct (services_while_true_any cfg pre
              {| cursor := JNull; totalFetched := 0; totalCreated := 0 |}
              last rest db fuel Hpre Hend Hfuel) as (Hover & n & Hchain).
  unfold main. rewrite run_bind. unfold and_then.
  split; [|split].
  - destruct (outcome (run services (while_true cfg fuel _) _)) as [[st'|]|e];
      cbn; congruence.
  - exists n.
    destruct (outcome (run services (while_true cfg fuel _) _)) as [r|e];
      cbn [trace run]; rewrite ?app_nil_r; exact Hchain.
  - intros Hpages. rewrite forallb_app in Hpages. cbn in Hpages.
    apply andb_true_iff in Hpages as [Hpages Hlast].
    rewrite andb_true_r in Hlast.
    assert (Hboth : forallb (fun page => is_export_page page && has_next page) pre = true).
    { rewrite forallb_forall in *. intros page Hin.
      now rewrite (Hpages page Hin), (Hpre page Hin). }
    destruct (services_while_true cfg pre
                {| cursor := JNull; totalFetched := 0; totalCreated := 0 |}
                last rest db fuel Hboth Hlast Hend Hfuel)
      as (st' & Hout & Hrw & Hfp).
    rewrite Hout. cbn [outcome world trace run]. rewrite app_nil_r, Hfp.
    exists (totalFetched st'), (totalCreated st').
    repeat split; [| exact Hrw].
    cbn. now rewrite length_map.
Qed.

Lemma main_pagination_witness :
  outcome (run services (main Scenario.cfg 2)
             {| readwise := [ Scenario.export_page [Scenario.book_a [JStr "t1"]] (JStr "c1");
                              Scenario.export_page [Scenario.book_a [JStr "t2"]] JNull;
                              Scenario.export_page [] (JStr "c3") ];
                notion := Scenario.empty_db |})
  = Ok (Some (2, 1))
  /\ fetch_params
       (trace (run services (main Scenario.cfg 2)
                 {| readwise := [ Scenario.export_page [Scenario.book_a [JStr "t1"]] (JStr "c1");
                                  Scenario.export_page [Scenario.book_a [JStr "t2"]] JNull;
                                  Scenario.export_page [] (JStr "c3") ];
                    notion := Scenario.empty_db |}))
     = [ []; [("pageCursor", JStr "c1")] ]
  /\ readwise
       (world (run services (main Scenario.cfg 2)
                 {| readwise := [ Scenario.export_page [Scenario.book_a [JStr "t1"]] (JStr "c1");
                                  Scenario.export_page [Scenario.book_a [JStr "t2"]] JNull;
                                  Scenario.export_page [] (JStr "c3") ];
                    notion := Scenario.empty_db |}))
     = [ Scenario.export_page [] (JStr "c3") ].
Proof.
  destruct (main_pagination Scenario.cfg
              [ Scenario.export_page [Scenario.book_a [JStr "t1"]] (JStr "c1") ]
              (Scenario.export_page [Scenario.book_a [JStr "t2"]] JNull)
              [ Scenario.export_page [] (JStr "c3") ]
              Scenario.empty_db 2 eq_refl eq_refl (le_n 2))
    as (_ & _ & Hwell).
  destruct (Hwell eq_refl) as (fetched & created & _ & Hfp & _ & Hrw).
  split; [reflexivity|]. split; [exact Hfp | exact Hrw].
Defined.

(** The counters of that run: two highlights fetched, one page
    created, the second highlight adding its tag to it. *)
Example main_two_pages :
  outcome (run services (main Scenario.cfg 2)
             {| readwise := [ Scenario.export_page [Scenario.book_a [JStr "t1"]] (JStr "c1");
                              Scenario.export_page [Scenario.book_a [JStr "t2"]] JNull ];
                notion := Scenario.empty_db |})
  = Ok (Some (2, 1))
  /\ notion (world (run services (main Scenario.cfg 2)
                      {| readwise := [ Scenario.export_page [Scenario.book_a [JStr "t1"]]
                                         (JStr "c1");
                                       Scenario.export_page [Scenario.book_a [JStr "t2"]]
                                         JNull ];
                         notion := Scenario.empty_db |}))
     = Scenario.db_a ["t1"; "t2"].
Proof. split; reflexivity. Qed.

(** A page that is not well formed ends the run where it is read: the
    second page is never requested. *)
Example main_aborts :
  outcome (run services (main Scenario.cfg 2)
             {| readwise := [ JObj [ ("results",
                                      JArr [JObj [("highlights", JArr [JNull])]]);
                                     ("nextPageCursor", JStr "c1") ];
                              Scenario.export_page [] JNull ];
                notion := Scenario.empty_db |})
  = Err TypeError
  /\ fetch_params
       (trace (run services (main Scenario.cfg 2)
                 {| readwise := [ JObj [ ("results",
                                          JArr [JObj [("highlights", JArr [JNull])]]);
                                         ("nextPageCursor", JStr "c1") ];
                                  Scenario.export_page [] JNull ];
                    notion := Scenario.empty_db |}))
     = [ [] ].
Proof. split; reflexivity. Qed.

(* ===================================================================== *)
(** ** Further properties *)
(* ===================================================================== *)

(* ===================================================================== *)
(** *** The Normalizer in closed form *)
(* ===================================================================== *)

Section NormalizerClosedForm.

Implicit Types (book h results : JsVal) (acc out : list NormalizedHighlight).

Lemma push_highlight_record book acc h :
  push_highlight (Js.or (Js.opt book "title") (JStr ""))
    (Js.or (Js.opt book "author") (JStr ""))
    (Js.or (Js.opt book "source_url") (JStr ""))
    (Js.or (Js.opt book "category") (JStr "")) acc h
  = if is_raw_highlight h then Ok (acc ++ [record_of book h]) else Err TypeError.
Proof.
  unfold push_highlight, get, is_raw_highlight, record_of.
  destruct (Js.nullish h); [reflexivity|]. cbn [ResultMonad.bind negb andb].
  pose proof (String_printable (Js.member h "id")) as Hid.
  destruct (Js.printable (Js.member h "id")); [destruct Hid as [s Hid]|];
    rewrite Hid; reflexivity.
Qed.

Lemma inner_loop_records book (hs : list JsVal) : forall acc,
  for_of hs
    (push_highlight (Js.or (Js.opt book "title") (JStr ""))
       (Js.or (Js.opt book "author") (JStr ""))
       (Js.or (Js.opt book "source_url") (JStr ""))
       (Js.or (Js.opt book "category") (JStr ""))) acc
  = if forallb is_raw_highlight hs
    then Ok (acc ++ map (record_of book) hs)
    else Err TypeError.
Proof.
  induction hs as [|h hs IH]; intros acc; cbn [for_of forallb map].
  - now rewrite app_nil_r.
  - rewrite push_highlight_record.
    destruct (is_raw_highlight h); cbn [ResultMonad.bind andb]; [|reflexivity].
    rewrite IH. destruct (forallb _ hs); [|reflexivity].
    now rewrite <- app_assoc.
Qed.

Lemma iterate_elements (v : JsVal) :
  iterate v = if iterable v then Ok (elements v) else Err TypeError.
Proof. unfold elements. now destruct v. Qed.

Lemma push_book_records acc book :
  push_book acc book
  = if book_goes_through book then Ok (acc ++ records_of_book book) else Err TypeError.
Proof.
  unfold push_book, book_goes_through, records_of_book, visited_highlights.
  rewrite iterate_elements.
  destruct (iterable _); cbn [ResultMonad.bind andb]; [|reflexivity].
  apply inner_loop_records.
Qed.

Lemma outer_loop_records (books : list JsVal) : forall acc,
  for_of books push_book acc
  = if forallb book_goes_through books
    then Ok (acc ++ flat_map records_of_book books)
    else Err TypeError.
Proof.
  induction books as [|book books IH]; intros acc; cbn [for_of forallb flat_map].
  - now rewrite app_nil_r.
  - rewrite push_book_records. destruct (book_goes_through book); cbn; [|reflexivity].
    rewrite IH. destruct (forallb _ books); [|reflexivity].
    now rewrite <- app_assoc.
Qed.

(** The loops of [normalizeHighlights], without the loops. *)
Lemma normalizeHighlights_records results :
  normalizeHighlights results
  = if goes_through results then Ok (records_of results) else Err TypeError.
Proof.
  unfold normalizeHighlights, goes_through, records_of, visited_books.
  rewrite iterate_elements.
  destruct (iterable _); cbn [ResultMonad.bind andb]; [|reflexivity].
  apply outer_loop_records.
Qed.

End NormalizerClosedForm.

(** X1.  [normalizeHighlights] throws nothing but a [TypeError], and
    throws it exactly when a loop cannot go through: [results], or the
    [highlights] of a book, is a truthy value that is neither an array
    nor a string, or a highlight is [null] or [undefined], or the [id]
    of a highlight is a value that [String] cannot convert. *)
Theorem normalizeHighlights_throws (results : JsVal) :
  (goes_through results = true <-> exists out, normalizeHighlights results = Ok out)
  /\ (goes_through results = false <-> normalizeHighlights results = Err TypeError)
  /\ (forall e, normalizeHighlights results = Err e -> e = TypeError).
Proof.
  rewrite normalizeHighlights_records.
  destruct (goes_through results); repeat split; try congruence.
  - intros _. now eexists.
  - intros [out H]. discriminate.
Qed.

(** What goes through and what does not. *)
Example goes_through_demo :
  goes_through JNull = true
  /\ goes_through (JStr "ab") = true
  /\ goes_through (JNum 3) = false
  /\ goes_through (JObj [("results", JArr [])]) = false
  /\ goes_through (JArr [JNull; JObj []; JObj [("highlights", JNull)]]) = true
  /\ goes_through (JArr [JObj [("highlights", JObj [])]]) = false
  /\ goes_through (JArr [JObj [("highlights", JArr [JObj []; JUndefined])]]) = false
  /\ goes_through (JArr [JObj [("highlights", JArr [JNum 0; JStr ""])]]) = true
  /\ goes_through
       (JArr [JObj [("highlights", JArr [JObj [("id", JObj [("toString", JNum 1)])]])]])
     = false
  /\ goes_through
       (JArr [JObj [("highlights",
                     JArr [JObj [("id", JArr [JNum 1; JObj [("toString", JNull)]])]])]])
     = false
  /\ goes_through
       (JArr [JObj [("highlights", JArr [JObj [("id", JObj [("valueOf", JNum 1)])]])]])
     = true.
Proof. repeat split. Qed.

Lemma Forall2_map_l {A B C} (R : B -> C -> Prop) (f : A -> B) (l : list A) (l' : list C) :
  Forall2 (fun a c => R (f a) c) l l' -> Forall2 R (map f l) l'.
Proof. induction 1; cbn; constructor; auto. Qed.

Lemma Forall2_flat_map {A B C} (R : B -> C -> Prop) (f : A -> list B) (g : A -> list C)
  (l : list A) :
  (forall a, In a l -> Forall2 R (f a) (g a)) ->
  Forall2 R (flat_map f l) (flat_map g l).
Proof.
  induction l as [|a l IH]; intros H; cbn; [constructor|].
  apply Forall2_app; [apply H; now left | apply IH; intros b Hb; apply H; now right].
Qed.

(** X2.  When the loops go through, [normalizeHighlights] returns one
    record per highlight, book after book and, within a book, highlight
    after highlight.  The record of a highlight has for [id] the string
    that [String] makes of the raw [id]; for [text] and [note] the raw ones, or the empty
    string; for [url] the raw [url], else the [source_url] of the
    record, else the empty string; and for [book_title],
    [book_author], [source_url] and [category] the [title], [author],
    [source_url] and [category] of its book, or the empty string when
    the book is [null] or the field is missing or falsy. *)
Theorem normalizeHighlights_records_in_order (results : JsVal) :
  goes_through results = true ->
  exists out,
    normalizeHighlights results = Ok out
    /\ Forall2
         (fun bh o =>
            Js.String_ (Js.member (snd bh) "id") = Ok (id o)
            /\ text o = Js.or (Js.member (snd bh) "text") (JStr "")
            /\ note o = Js.or (Js.member (snd bh) "note") (JStr "")
            /\ url o = Js.or (Js.or (Js.member (snd bh) "url") (source_url o)) (JStr "")
            /\ book_title o = Js.or (Js.opt (fst bh) "title") (JStr "")
            /\ book_author o = Js.or (Js.opt (fst bh) "author") (JStr "")
            /\ source_url o = Js.or (Js.opt (fst bh) "source_url") (JStr "")
            /\ category o = Js.or (Js.opt (fst bh) "category") (JStr ""))
         (flat_map (fun book => map (pair book) (visited_highlights book))
            (visited_books results))
         out.
Proof.
  intros Hgo. rewrite normalizeHighlights_records, Hgo.
  eexists. split; [reflexivity|].
  unfold goes_through in Hgo. apply andb_true_iff in Hgo as [_ Hbooks].
  rewrite forallb_forall in Hbooks.
  unfold records_of. apply Forall2_flat_map. intros book Hbook.
  specialize (Hbooks book Hbook). unfold book_goes_through in Hbooks.
  apply andb_true_iff in Hbooks as [_ Hraw].
  unfold records_of_book.
  induction (visited_highlights book) as [|h hs IH]; cbn [map]; constructor.
  - cbn [forallb] in Hraw. apply andb_true_iff in Hraw as [Hh _].
    unfold is_raw_highlight in Hh. apply andb_true_iff in Hh as [_ Hid].
    destruct (String_of_printable _ Hid) as [s Hs].
    cbn [record_of id text note url book_title book_author source_url category fst snd].
    rewrite Hs. repeat split.
  - apply IH. cbn [forallb] in Hraw. now apply andb_true_iff in Hraw as [_ Hhs].
Qed.

Lemma normalizeHighlights_records_in_order_witness :
  exists out,
    normalizeHighlights
      (JArr [ JObj [ ("title", JStr "A"); ("source_url", JStr "https://a");
                     ("highlights", JArr [ JObj [("id", JNum 1)];
                                           JObj [("id", JNum 2); ("url", JStr "https://h")] ]) ];
              JNull;
              JObj [ ("author", JNum 0);
                     ("highlights", JArr [ JObj [("id", JStr "x"); ("text", JStr "t")] ]) ] ])
    = Ok out
    /\ map (fun o => (id o, url o, book_title o, book_author o)) out
       = [ ("1", JStr "https://a", JStr "A", JStr "");
           ("2", JStr "https://h", JStr "A", JStr "");
           ("x", JStr "", JStr "", JStr "") ].
Proof.
  destruct (normalizeHighlights_records_in_order
              (JArr [ JObj [ ("title", JStr "A"); ("source_url", JStr "https://a");
                             ("highlights",
                              JArr [ JObj [("id", JNum 1)];
                                     JObj [("id", JNum 2); ("url", JStr "https://h")] ]) ];
                      JNull;
                      JObj [ ("author", JNum 0);
                             ("highlights",
                              JArr [ JObj [("id", JStr "x"); ("text", JStr "t")] ]) ] ])
              eq_refl) as (out & Hout & _).
  exists out. split; [exact Hout|].
  cbn in Hout. injection Hout as <-. reflexivity.
Defined.

Lemma or_empty_twice (v : JsVal) :
  Js.or (Js.or v (JStr "")) (JStr "") = Js.or v (JStr "").
Proof. unfold Js.or. destruct (Js.Boolean v) eqn:E; [now rewrite E | reflexivity]. Qed.

Lemma or_empty_defined (v : JsVal) : Js.or v (JStr "") <> JUndefined.
Proof.
  unfold Js.or. destruct (Js.Boolean v) eqn:E; [|discriminate].
  intros ->. discriminate.
Qed.

Lemma or_defined (v d : JsVal) : d <> JUndefined -> Js.or v d <> JUndefined.
Proof.
  intros Hd. unfold Js.or. destruct (Js.Boolean v) eqn:E; [|exact Hd].
  intros ->. discriminate.
Qed.

Lemma or_empty_not_nullish (v : JsVal) : Js.nullish (Js.or v (JStr "")) = false.
Proof.
  unfold Js.or. destruct (Js.Boolean v) eqn:E; [|reflexivity].
  destruct v; try reflexivity; discriminate.
Qed.

Lemma filter_Boolean_twice (l : list string) :
  filter_Boolean (filter_Boolean l) = filter_Boolean l.
Proof.
  unfold filter_Boolean. rewrite filter_filter. apply filter_ext.
  intros s. apply andb_diag.
Qed.

Lemma filter_Boolean_non_empty (l : list string) :
  Forall (fun t => t <> "") (filter_Boolean l).
Proof.
  apply Forall_forall. intros t Ht. apply filter_In in Ht as [_ Ht].
  cbn in Ht. now apply negb_true_iff, String.eqb_neq in Ht.
Qed.

(** X3.  What every record of the Normalizer satisfies, whatever the
    export held: its tags are non-empty strings, so that the filter of
    the Upserter keeps them all; its [url] is a truthy value or the
    empty string, so that [h.url || ''] is [h.url]; its [book_title]
    is never [null] or [undefined], so that [h.book_title?.trim()]
    always calls [trim]; and none of its fields is [undefined]. *)
Theorem normalizeHighlights_invariant (results : JsVal)
  (out : list NormalizedHighlight) :
  normalizeHighlights results = Ok out ->
  Forall
    (fun o =>
       Forall (fun t => t <> "") (tags o)
       /\ filter_Boolean (tags o) = tags o
       /\ Js.or (url o) (JStr "") = url o
       /\ Js.nullish (book_title o) = false
       /\ text o <> JUndefined /\ note o <> JUndefined
       /\ location o <> JUndefined /\ highlighted_at o <> JUndefined
       /\ url o <> JUndefined /\ book_title o <> JUndefined
       /\ book_author o <> JUndefined /\ source_url o <> JUndefined
       /\ category o <> JUndefined)
    out.
Proof.
  rewrite normalizeHighlights_records.
  destruct (goes_through results); [|discriminate]. intros [= <-].
  unfold records_of. apply Forall_flat_map, Forall_forall. intros book _.
  unfold records_of_book. apply Forall_map, Forall_forall. intros h _.
  cbn [record_of tags url book_title text note location highlighted_at
       book_author source_url category].
  repeat split; try apply or_empty_defined.
  - apply filter_Boolean_non_empty.
  - apply filter_Boolean_twice.
  - apply or_empty_twice.
  - apply or_empty_not_nullish.
  - unfold Js.coalesce. now destruct (Js.member h "location").
  - apply or_defined. discriminate.
Qed.

Lemma normalizeHighlights_invariant_witness :
  Forall
    (fun o =>
       Forall (fun t => t <> "") (tags o)
       /\ filter_Boolean (tags o) = tags o
       /\ Js.or (url o) (JStr "") = url o
       /\ Js.nullish (book_title o) = false
       /\ text o <> JUndefined /\ note o <> JUndefined
       /\ location o <> JUndefined /\ highlighted_at o <> JUndefined
       /\ url o <> JUndefined /\ book_title o <> JUndefined
       /\ book_author o <> JUndefined /\ source_url o <> JUndefined
       /\ category o <> JUndefined)
    [ {| id := "undefined"; text := JStr ""; note := JStr ""; location := JNull;
         highlighted_at := JNull; url := JNum 7; tags := ["a"];
         book_title := JStr ""; book_author := JStr "";
         source_url := JNum 7; category := JStr "" |} ].
Proof.
  apply (normalizeHighlights_invariant
           (JArr [ JObj [ ("title", JNull); ("source_url", JNum 7);
                          ("highlights",
                           JArr [ JObj [("tags", JArr [JStr ""; JStr "a"; JNull])] ]) ] ])).
  reflexivity.
Defined.

(** X4.  Normalising two batches of books at once is normalising each
    and putting the records one after the other; the first exception
    is the one thrown. *)
Theorem normalizeHighlights_app (books1 books2 : list JsVal) :
  normalizeHighlights (JArr (books1 ++ books2))
  = match normalizeHighlights (JArr books1) with
    | Ok out1 =>
        match normalizeHighlights (JArr books2) with
        | Ok out2 => Ok (out1 ++ out2)
        | Err e => Err e
        end
    | Err e => Err e
    end.
Proof.
  rewrite !normalizeHighlights_records.
  unfold goes_through, records_of, visited_books, Js.or, elements.
  cbn [Js.Boolean iterable iterate andb].
  rewrite forallb_app, flat_map_app.
  destruct (forallb book_goes_through books1); [|reflexivity].
  now destruct (forallb book_goes_through books2).
Qed.

Lemma string_or_falsy_or (v d : JsVal) :
  string_or_falsy v = true -> string_or_falsy d = true ->
  string_or_falsy (Js.or v d) = true.
Proof. intros Hv Hd. unfold Js.or. now destruct (Js.Boolean v). Qed.

Lemma string_or_empty (v : JsVal) :
  string_or_falsy v = true -> exists s, Js.or v (JStr "") = JStr s.
Proof.
  intros Hv. unfold Js.or. destruct (Js.Boolean v) eqn:E; [|exists ""; reflexivity].
  destruct v as [| |b|n| |s|l|fs]; cbn in Hv, E; try discriminate.
  - rewrite E in Hv. discriminate.
  - rewrite E in Hv. discriminate.
  - exists s. reflexivity.
Qed.

Lemma is_typed_string_or_falsy (o : NormalizedHighlight) (s : string) :
  string_or_falsy (url o) = true -> book_title o = JStr s -> is_typed o = true.
Proof.
  unfold is_typed, string_or_falsy. intros Hurl ->.
  destruct (url o); cbn in *; rewrite ?andb_true_r; auto.
Qed.

Lemma is_typed_record_of (book h : JsVal) :
  typed_source book h = true -> is_typed (record_of book h) = true.
Proof.
  unfold typed_source. intros H.
  apply andb_true_iff in H as [H Htitle]. apply andb_true_iff in H as [Hurl Hsrc].
  destruct (string_or_empty _ Htitle) as [s Hs].
  apply (is_typed_string_or_falsy _ s); [|exact Hs].
  cbn [record_of url]. repeat apply string_or_falsy_or; auto.
Qed.

(** X5.  An export whose pages hold strings, or nothing, where the
    Upserter expects strings is well formed: when the [results] of a
    page go through the loops and, for every highlight, its [url] and
    the [source_url] and [title] of its book are strings or falsy, the
    records of the page are all typed, and the page is one the
    Orchestrator goes through without an exception. *)
Theorem typed_export_page (page : JsVal) :
  Js.nullish page = false ->
  goes_through (Js.member page "results") = true ->
  forallb (fun book => forallb (typed_source book) (visited_highlights book))
    (visited_books (Js.member page "results")) = true ->
  (exists out,
     normalizeHighlights (Js.member page "results") = Ok out
     /\ forallb is_typed out = true)
  /\ is_export_page page = true.
Proof.
  intros Hpage Hgo Htyped.
  assert (Hout : forallb is_typed (records_of (Js.member page "results")) = true).
  { unfold records_of. apply forallb_forall. intros o Ho.
    apply in_flat_map in Ho as (book & Hbook & Ho).
    unfold records_of_book in Ho. apply in_map_iff in Ho as (h & <- & Hh).
    apply is_typed_record_of.
    rewrite forallb_forall in Htyped. specialize (Htyped book Hbook).
    rewrite forallb_forall in Htyped. now apply Htyped. }
  split.
  - eexists. rewrite normalizeHighlights_records, Hgo. split; [reflexivity | exact Hout].
  - unfold is_export_page. rewrite Hpage, normalizeHighlights_records, Hgo. exact Hout.
Qed.

Lemma typed_export_page_witness :
  (exists out,
     normalizeHighlights
       (Js.member (Scenario.export_page [Scenario.book_a [JStr "t1"]; JNull] (JStr "c"))
          "results") = Ok out
     /\ forallb is_typed out = true)
  /\ is_export_page
       (Scenario.export_page [Scenario.book_a [JStr "t1"]; JNull] (JStr "c")) = true.
Proof.
  apply (typed_export_page
           (Scenario.export_page [Scenario.book_a [JStr "t1"]; JNull] (JStr "c")));
    reflexivity.
Defined.

(* ===================================================================== *)
(** *** More on the Upserter *)
(* ===================================================================== *)

(** X6.  Whatever the services answer, a run of the Upserter sends
    nothing, or the query of the Matcher alone, or this query followed
    by exactly one write; it sends nothing exactly when the highlight
    does not pass the guards.  So there is never a write without a
    query before it, never two writes, never a second query. *)
Theorem upsert_trace_shape (W : Type) (env : Env W) (cfg : Config)
  (h : NormalizedHighlight) (w : W) :
  (trace (run env (upsertUrlWithTags cfg h) w) = []
   /\ forall u, ~ passes_guards h u)
  \/ exists u,
       passes_guards h u
       /\ (trace (run env (upsertUrlWithTags cfg h) w)
           = [Api.call (matcher_request cfg u)]
           \/ exists c,
                is_write c = true
                /\ trace (run env (upsertUrlWithTags cfg h) w)
                   = [Api.call (matcher_request cfg u); c]).
Proof.
  destruct (upsert_guard_cases cfg h) as [(e & _ & -> & Hno)|[[-> Hno]|[u Hguards]]];
    [now left | now left | right].
  exists u. split; [exact Hguards|].
  rewrite (run_upsert env cfg h u w Hguards), run_findPageByUrl.
  destruct (env _ (matcher_request cfg u) w) as [[resp|e] w1]; unfold and_then;
    cbn [outcome world trace]; [|now left].
  destruct (titleText h u) as [t|e]; [|now left].
  destruct (match Api.results resp with Some (page :: _) => Some page | _ => None end)
    as [existing|]; cbn zeta.
  - destruct (needUpdate _ _); [|now left].
    right. eexists. split; [|reflexivity]. reflexivity.
  - right. eexists. split; [|reflexivity]. reflexivity.
Qed.

(** X7.  The Upserter returns [true] only after it has created a page:
    the Matcher found nothing, and the run is the query followed by the
    creation.  A run that updates a page never returns [true]. *)
Theorem upsert_true_created (W : Type) (env : Env W) (cfg : Config)
  (h : NormalizedHighlight) (w : W) :
  outcome (run env (upsertUrlWithTags cfg h) w) = Ok true ->
  exists u t,
    passes_guards h u
    /\ titleText h u = Ok t
    /\ outcome (run env (findPageByUrl cfg u) w) = Ok None
    /\ trace (run env (upsertUrlWithTags cfg h) w)
       = [ Api.call (matcher_request cfg u);
           Api.call (Api.pages_create (NOTION_DATABASE_ID cfg)
                       (write_properties h u t (filter_Boolean (tags h)))) ].
Proof.
  destruct (upsert_guard_cases cfg h) as [(e & _ & -> & Hno)|[[-> Hno]|[u Hguards]]];
    [discriminate | discriminate |].
  intros Htrue. exists u.
  rewrite (run_upsert env cfg h u w Hguards) in *.
  unfold and_then in *.
  destruct (outcome (run env (findPageByUrl cfg u) w)) as [found|e] eqn:Hfound;
    cbn [outcome trace] in *; [|discriminate].
  destruct (titleText h u) as [t|e] eqn:Htitle; [|discriminate].
  exists t. rewrite trace_findPageByUrl.
  destruct found as [existing|]; cbn zeta in *.
  - exfalso. destruct (needUpdate _ _); cbn in Htrue; [|discriminate].
    destruct (fst (env _ _ _)); discriminate.
  - rewrite write_properties_eq. repeat split; try apply Hguards.
Qed.

Lemma upsert_true_created_witness :
  exists u t,
    passes_guards (Scenario.h1 ["t1"]) u
    /\ titleText (Scenario.h1 ["t1"]) u = Ok t
    /\ outcome (run services (findPageByUrl Scenario.cfg u)
                  {| readwise := []; notion := Scenario.empty_db |}) = Ok None
    /\ trace (run services (upsertUrlWithTags Scenario.cfg (Scenario.h1 ["t1"]))
                {| readwise := []; notion := Scenario.empty_db |})
       = [ Api.call (matcher_request Scenario.cfg u);
           Api.call (Api.pages_create (NOTION_DATABASE_ID Scenario.cfg)
                       (write_properties (Scenario.h1 ["t1"]) u t
                          (filter_Boolean (tags (Scenario.h1 ["t1"])))) ) ].
Proof.
  apply (upsert_true_created World services Scenario.cfg (Scenario.h1 ["t1"])
           {| readwise := []; notion := Scenario.empty_db |}).
  reflexivity.
Defined.

(** X8.  When the query of the Matcher is rejected, the Upserter throws
    the rejection and has written nothing: the query is its only
    request. *)
Theorem upsert_query_rejected (W : Type) (env : Env W) (cfg : Config)
  (h : NormalizedHighlight) (u : string) (w : W) (e : Exn) :
  passes_guards h u ->
  fst (env _ (matcher_request cfg u) w) = Err e ->
  outcome (run env (upsertUrlWithTags cfg h) w) = Err e
  /\ trace (run env (upsertUrlWithTags cfg h) w) = [Api.call (matcher_request cfg u)]
  /\ world (run env (upsertUrlWithTags cfg h) w) = snd (env _ (matcher_request cfg u) w).
Proof.
  intros Hguards Hrej.
  rewrite (run_upsert env cfg h u w Hguards), run_findPageByUrl.
  destruct (env _ (matcher_request cfg u) w) as [[resp|e'] w1]; cbn in Hrej;
    [discriminate|].
  injection Hrej as ->. now unfold and_then.
Qed.

Lemma upsert_query_rejected_witness :
  outcome (run offline (upsertUrlWithTags Scenario.cfg (Scenario.h1 ["t1"])) tt)
  = Err (Rejected (JStr "offline"))
  /\ trace (run offline (upsertUrlWithTags Scenario.cfg (Scenario.h1 ["t1"])) tt)
     = [Scenario.query_request]
  /\ world (run offline (upsertUrlWithTags Scenario.cfg (Scenario.h1 ["t1"])) tt) = tt.
Proof.
  apply (upsert_query_rejected unit offline Scenario.cfg (Scenario.h1 ["t1"])
           "https://x.com" tt).
  - repeat split; discriminate.
  - reflexivity.
Defined.

(** X9.  The Upserter reads five things of a highlight: its trimmed
    [url], its truthy tags, and its [book_title], [book_author] and
    [category].  Two highlights that agree on these are the same
    program: the [id], [text], [note], [location], [highlighted_at]
    and [source_url] of a highlight, and the white space around its
    [url], reach neither the Matcher nor the destination. *)
Theorem upsert_reads (cfg : Config) (h h' : NormalizedHighlight) :
  call_trim (Js.or (url h) (JStr "")) = call_trim (Js.or (url h') (JStr "")) ->
  filter_Boolean (tags h) = filter_Boolean (tags h') ->
  book_title h = book_title h' ->
  book_author h = book_author h' ->
  category h = category h' ->
  upsertUrlWithTags cfg h = upsertUrlWithTags cfg h'.
Proof.
  intros Hurl Htags Htitle Hauthor Hcategory.
  unfold upsertUrlWithTags, titleText, baseProperties.
  now rewrite Hurl, Htags, Htitle, Hauthor, Hcategory.
Qed.

Lemma upsert_reads_witness :
  upsertUrlWithTags Scenario.cfg
    {| id := "1"; text := JStr "one"; note := JStr "n"; location := JNum 3;
       highlighted_at := JStr "2024-01-01"; url := JStr "  https://x.com ";
       tags := ["t1"; ""]; book_title := JStr "Book A"; book_author := JStr "";
       source_url := JStr "https://src"; category := JStr "books" |}
  = upsertUrlWithTags Scenario.cfg
      {| id := "2"; text := JStr "two"; note := JStr ""; location := JNull;
         highlighted_at := JNull; url := JStr "https://x.com";
         tags := ["t1"]; book_title := JStr "Book A"; book_author := JStr "";
         source_url := JStr ""; category := JStr "books" |}.
Proof.
  apply (upsert_reads Scenario.cfg); reflexivity.
Defined.

(* ===================================================================== *)
(** *** More on merging *)
(* ===================================================================== *)

Lemma merged_first_occurrences (e t : list string) :
  merged e t = first_occurrences (e ++ t).
Proof. unfold merged, JsSet.to_array. apply of_array_first_occurrences. Qed.

Lemma first_occurrences_twice (l : list string) :
  first_occurrences (first_occurrences l) = first_occurrences l.
Proof. apply first_occurrences_NoDup, NoDup_first_occurrences. Qed.

(** X10.  What [Array.from(new Set([...existingTags, ...tags]))] makes
    of two lists: the result holds no duplicate; it holds exactly the
    tags of one list or the other; merging a second batch into the
    result is merging both batches at once; and merging the same batch
    again changes nothing. *)
Theorem merged_composes (existingTags tags1 tags2 : list string) :
  NoDup (merged existingTags tags1)
  /\ (forall x, In x (merged existingTags tags1) <-> In x existingTags \/ In x tags1)
  /\ merged (merged existingTags tags1) tags2 = merged existingTags (tags1 ++ tags2)
  /\ merged (merged existingTags tags1) tags1 = merged existingTags tags1.
Proof.
  split; [apply NoDup_merged|]. split; [intros x; apply In_merged|].
  assert (Hseq : forall a b c : list string, merged (merged a b) c = merged a (b ++ c)).
  { intros a b c. rewrite !merged_first_occurrences, app_assoc.
    set (X := a ++ b).
    rewrite <- (merged_first_occurrences (first_occurrences X) c), merged_union.
    rewrite <- (merged_first_occurrences X c), merged_union.
    unfold union_first_seen. rewrite first_occurrences_twice. do 2 f_equal.
    apply filter_ext. intros x. f_equal.
    apply eq_true_iff_eq. rewrite !has_In. apply In_first_occurrences. }
  split; [apply Hseq|].
  apply merged_known; [apply NoDup_merged|].
  intros x Hx. apply In_merged. now right.
Qed.

(** X11.  No update is sent for a record exactly when its tags hold no
    duplicate and every incoming tag is among them: the comparison of
    the merged list with the existing one is an equality of lists. *)
Theorem needUpdate_false_iff (existingTags tags : list string) :
  (forall m : list string, needUpdate m existingTags = false <-> m = existingTags)
  /\ (needUpdate (merged existingTags tags) existingTags = false
      <-> NoDup existingTags /\ forall x, In x tags -> In x existingTags).
Proof.
  split; [intros m; apply needUpdate_false|].
  rewrite needUpdate_false. split.
  - intros Heq. split.
    + rewrite <- Heq. apply NoDup_merged.
    + intros x Hx. rewrite <- Heq. apply In_merged. now right.
  - intros [Hnd Hknown]. now apply merged_known.
Qed.

(* ===================================================================== *)
(** *** Matcher and Paginator *)
(* ===================================================================== *)

(** X12.  Against the database, the Matcher is a read: it leaves the
    world as it is and sends one query.  It answers the first page, in
    the order of the database, whose [URL] is the one asked for, and
    [null] only when no page has this [URL]; it never throws. *)
Theorem matcher_first_match (cfg : Config) (u : string) (w : World) :
  world (run services (findPageByUrl cfg u) w) = w
  /\ trace (run services (findPageByUrl cfg u) w) = [Api.call (matcher_request cfg u)]
  /\ match outcome (run services (findPageByUrl cfg u) w) with
     | Ok (Some page) =>
         exists l1 l2,
           Notion.pages (notion w) = l1 ++ page :: l2
           /\ Notion.url_equals "URL" u page = true
           /\ forall p, In p l1 -> Notion.url_equals "URL" u p = false
     | Ok None =>
         forall p, In p (Notion.pages (notion w)) -> Notion.url_equals "URL" u p = false
     | Err _ => False
     end.
Proof.
  rewrite services_findPageByUrl. cbn [world trace outcome].
  split; [reflexivity|]. split; [reflexivity|].
  destruct (find (Notion.url_equals "URL" u) (Notion.pages (notion w)))
    as [page|] eqn:Hfind.
  - destruct (find_split _ _ _ Hfind) as (l1 & l2 & Hpages & Hl1 & Hpage).
    exists l1, l2. repeat split; [exact Hpages | exact Hpage |].
    intros p Hp. rewrite forallb_forall in Hl1.
    now apply negb_true_iff, Hl1.
  - intros p Hp. destruct (Notion.url_equals "URL" u p) eqn:E; [|reflexivity].
    now rewrite (find_none _ _ Hfind p Hp) in E.
Qed.

Lemma run_fetch {W} (env : Env W) (cfg : Config) (c : JsVal) (w : W) :
  run env (fetchReadwisePage cfg c) w
  = {| outcome := match fst (env _ (paginator_request cfg c) w) with
                  | Ok resp => Ok (Api.data resp)
                  | Err e => Err e
                  end;
       world := snd (env _ (paginator_request cfg c) w);
       trace := [Api.call (paginator_request cfg c)] |}.
Proof.
  unfold fetchReadwisePage, paginator_request. rewrite run_bind, run_await.
  unfold and_then. cbn [outcome world trace app].
  destruct (Js.Boolean c); cbn [app];
    now destruct (fst (env _ _ w)).
Qed.

(** X13.  Whatever the services answer, [fetchReadwisePage] sends one
    request, a GET of the export with the token in its [Authorization]
    header and a timeout of 30000 ms; the request has a [pageCursor]
    parameter exactly when the cursor is truthy, so not for [null], an
    absent cursor, the empty string or zero.  The call returns the
    [data] of the response, and throws what a rejected request is
    rejected with. *)
Theorem fetchReadwisePage_request (W : Type) (env : Env W) (cfg : Config)
  (pageCursor : JsVal) (w : W) :
  trace (run env (fetchReadwisePage cfg pageCursor) w)
  = [Api.call
       (Api.axios_get "https://readwise.io/api/v2/export/"
          [("Authorization", ("Token " ++ READWISE_TOKEN cfg)%string)]
          (if Js.Boolean pageCursor then [("pageCursor", pageCursor)] else [])
          30000)]
  /\ (fetch_params (trace (run env (fetchReadwisePage cfg pageCursor) w)) = [[]]
      <-> Js.Boolean pageCursor = false)
  /\ outcome (run env (fetchReadwisePage cfg pageCursor) w)
     = match fst (env _ (paginator_request cfg pageCursor) w) with
       | Ok resp => Ok (Api.data resp)
       | Err e => Err e
       end.
Proof.
  rewrite run_fetch. cbn [trace outcome]. split; [reflexivity|].
  split; [|reflexivity].
  unfold paginator_request. cbn. destruct (Js.Boolean pageCursor); split; congruence.
Qed.

(** The cursors that are left out of the request. *)
Example fetchReadwisePage_falsy :
  map (fun c => fetch_params
                  (trace (run offline (fetchReadwisePage Scenario.cfg c) tt)))
    [JNull; JUndefined; JStr ""; JNum 0; JStr "c1"; JNum 5]
  = [ [[]]; [[]]; [[]]; [[]];
      [[("pageCursor", JStr "c1")]]; [[("pageCursor", JNum 5)]] ].
Proof. reflexivity. Qed.

(* ===================================================================== *)
(** *** What the Upserter does to the database *)
(* ===================================================================== *)

(** The three things a run of the Upserter can do to the database. *)
Lemma services_upsert_effect (cfg : Config) (h : NormalizedHighlight) (w : World) :
  NoDup (map Api.id (Notion.pages (notion w))) ->
  (Notion.pages (notion (world (run services (upsertUrlWithTags cfg h) w)))
   = Notion.pages (notion w)
   /\ outcome (run services (upsertUrlWithTags cfg h) w) <> Ok true)
  \/ (exists l1 p p' l2,
        Notion.pages (notion w) = l1 ++ p :: l2
        /\ Notion.pages (notion (world (run services (upsertUrlWithTags cfg h) w)))
           = l1 ++ p' :: l2
        /\ Api.id p' = Api.id p
        /\ existingTags p' = merged (existingTags p) (filter_Boolean (tags h))
        /\ outcome (run services (upsertUrlWithTags cfg h) w) = Ok false)
  \/ (exists p,
        Notion.pages (notion (world (run services (upsertUrlWithTags cfg h) w)))
        = Notion.pages (notion w) ++ [p]
        /\ existingTags p = first_occurrences (filter_Boolean (tags h))
        /\ outcome (run services (upsertUrlWithTags cfg h) w) = Ok true).
Proof.
  intros Hids.
  destruct (upsert_guard_cases cfg h) as [(e & _ & -> & _)|[[-> _]|[u Hguards]]];
    [left; now split | left; now split |].
  rewrite (run_upsert services cfg h u w Hguards), services_findPageByUrl.
  unfold and_then. cbn [outcome world trace].
  destruct (titleText h u) as [t|e]; [|left; now split].
  destruct (find (Notion.url_equals "URL" u) (Notion.pages (notion w)))
    as [existing|] eqn:Hfound; cbn zeta.
  - destruct (needUpdate _ _); cbn [world outcome]; [|left; now split].
    right. left.
    destruct (find_split _ _ _ Hfound) as (l1 & l2 & Hpages & _ & _).
    rewrite write_properties_eq, services_update. cbn [fst snd notion].
    unfold Notion.update. rewrite Hpages in Hids |- *.
    rewrite update_pages_split by exact Hids. cbn [fst snd Notion.pages].
    destruct (written_page existing h u t
                (merged (existingTags existing) (filter_Boolean (tags h))))
      as [_ Htags].
    rewrite (first_occurrences_NoDup _ (NoDup_merged _ _)) in Htags.
    exists l1, existing. eexists. exists l2.
    repeat split; [exact Htags].
  - right. right. rewrite write_properties_eq.
    cbn [services fst snd world outcome notion Notion.create Notion.pages].
    destruct (written_page
                {| Api.id := Notion.fresh_id (notion w); Api.properties := None |}
                h u t (filter_Boolean (tags h))) as [_ Htags].
    eexists. repeat split. exact Htags.
Qed.

(** X14.  A run of the Upserter against a database whose records have
    distinct identifiers does one of three things to it: nothing; or it
    rewrites one record, which keeps its place and its identifier and
    whose tags become the merged tags, so that no tag it had is lost;
    or, and only then does it return [true], it adds one record at the
    end.  It never removes a record, and never touches two. *)
Theorem upsert_touches_one_record (cfg : Config) (h : NormalizedHighlight) (w : World) :
  NoDup (map Api.id (Notion.pages (notion w))) ->
  (Notion.pages (notion (world (run services (upsertUrlWithTags cfg h) w)))
   = Notion.pages (notion w)
   /\ outcome (run services (upsertUrlWithTags cfg h) w) <> Ok true)
  \/ (exists l1 p p' l2,
        Notion.pages (notion w) = l1 ++ p :: l2
        /\ Notion.pages (notion (world (run services (upsertUrlWithTags cfg h) w)))
           = l1 ++ p' :: l2
        /\ Api.id p' = Api.id p
        /\ (forall x, In x (existingTags p) -> In x (existingTags p'))
        /\ (forall x, In x (filter_Boolean (tags h)) -> In x (existingTags p'))
        /\ outcome (run services (upsertUrlWithTags cfg h) w) = Ok false)
  \/ (exists p,
        Notion.pages (notion (world (run services (upsertUrlWithTags cfg h) w)))
        = Notion.pages (notion w) ++ [p]
        /\ (forall x, In x (existingTags p) <-> In x (filter_Boolean (tags h)))
        /\ outcome (run services (upsertUrlWithTags cfg h) w) = Ok true).
Proof.
  intros Hids.
  destruct (services_upsert_effect cfg h w Hids)
    as [H|[(l1 & p & p' & l2 & HP & HP' & Hid & Htags & Hout)|(p & HP' & Htags & Hout)]].
  - now left.
  - right. left. exists l1, p, p', l2. rewrite Htags.
    repeat split; try assumption; intros x Hx; apply In_merged; auto.
  - right. right. exists p. rewrite Htags.
    repeat split; try assumption; apply In_first_occurrences.
Qed.

Lemma upsert_touches_one_record_witness :
  (Notion.pages
     (notion (world (run services (upsertUrlWithTags Scenario.cfg (Scenario.h1 ["t2"]))
                       {| readwise := []; notion := Scenario.db_a ["t1"] |})))
   = Notion.pages (Scenario.db_a ["t1"])
   /\ outcome (run services (upsertUrlWithTags Scenario.cfg (Scenario.h1 ["t2"]))
                 {| readwise := []; notion := Scenario.db_a ["t1"] |}) <> Ok true)
  \/ (exists l1 p p' l2,
        Notion.pages (Scenario.db_a ["t1"]) = l1 ++ p :: l2
        /\ Notion.pages
             (notion (world (run services
                               (upsertUrlWithTags Scenario.cfg (Scenario.h1 ["t2"]))
                               {| readwise := []; notion := Scenario.db_a ["t1"] |})))
           = l1 ++ p' :: l2
        /\ Api.id p' = Api.id p
        /\ (forall x, In x (existingTags p) -> In x (existingTags p'))
        /\ (forall x, In x (filter_Boolean (tags (Scenario.h1 ["t2"])))
                      -> In x (existingTags p'))
        /\ outcome (run services (upsertUrlWithTags Scenario.cfg (Scenario.h1 ["t2"]))
                      {| readwise := []; notion := Scenario.db_a ["t1"] |}) = Ok false)
  \/ (exists p,
        Notion.pages
          (notion (world (run services
                            (upsertUrlWithTags Scenario.cfg (Scenario.h1 ["t2"]))
                            {| readwise := []; notion := Scenario.db_a ["t1"] |})))
        = Notion.pages (Scenario.db_a ["t1"]) ++ [p]
        /\ (forall x, In x (existingTags p)
                      <-> In x (filter_Boolean (tags (Scenario.h1 ["t2"]))))
        /\ outcome (run services (upsertUrlWithTags Scenario.cfg (Scenario.h1 ["t2"]))
                      {| readwise := []; notion := Scenario.db_a ["t1"] |}) = Ok true).
Proof.
  apply (upsert_touches_one_record Scenario.cfg (Scenario.h1 ["t2"])
           {| readwise := []; notion := Scenario.db_a ["t1"] |}).
  repeat constructor. intros [].
Defined.

(* ===================================================================== *)
(** *** The counters of the Orchestrator *)
(* ===================================================================== *)

Section Counters.

Context {W : Type} (env : Env W) (cfg : Config).

Lemma count_app (p : Api.Call -> bool) (t1 t2 : list Api.Call) :
  count p (t1 ++ t2) = count p t1 + count p t2.
Proof. unfold count. now rewrite filter_app, length_app. Qed.

Lemma accounts_app (t1 t2 : list Api.Call) (f1 c1 f2 c2 : nat) :
  accounts t1 f1 c1 -> accounts t2 f2 c2 -> accounts (t1 ++ t2) (f1 + f2) (c1 + c2).
Proof.
  unfold accounts. rewrite !count_app. intros (?&?&?&?&?) (?&?&?&?&?).
  repeat split; lia.
Qed.

(** The requests of one run of the Upserter, counted. *)
Lemma upsert_counts (h : NormalizedHighlight) (w : W) :
  count is_sleep (trace (run env (upsertUrlWithTags cfg h) w)) = 0
  /\ count is_query (trace (run env (upsertUrlWithTags cfg h) w)) <= 1
  /\ count is_write (trace (run env (upsertUrlWithTags cfg h) w))
     <= count is_query (trace (run env (upsertUrlWithTags cfg h) w))
  /\ count is_create (trace (run env (upsertUrlWithTags cfg h) w))
     <= count is_write (trace (run env (upsertUrlWithTags cfg h) w))
  /\ (outcome (run env (upsertUrlWithTags cfg h) w) = Ok true ->
      count is_create (trace (run env (upsertUrlWithTags cfg h) w)) = 1).
Proof.
  destruct (upsert_guard_cases cfg h) as [(e & _ & -> & _)|[[-> _]|[u Hguards]]];
    [cbn; repeat split; (lia || discriminate)
    |cbn; repeat split; (lia || discriminate)|].
  rewrite (run_upsert env cfg h u w Hguards), run_findPageByUrl.
  destruct (env _ (matcher_request cfg u) w) as [[resp|e] w1]; unfold and_then;
    cbn [outcome world trace];
    [|cbn; repeat split; (lia || discriminate)].
  destruct (titleText h u) as [t|e];
    [|cbn; repeat split; (lia || discriminate)].
  destruct (match Api.results resp with Some (page :: _) => Some page | _ => None end)
    as [existing|]; cbn zeta.
  - destruct (needUpdate _ _);
      [|cbn; repeat split; (lia || discriminate)].
    cbn. repeat split; try lia.
    destruct (fst (env _ _ w1)); discriminate.
  - cbn. repeat split; lia.
Qed.

(** One highlight and the sleep after it. *)
Lemma upsert_and_sleep_accounts (n n' : nat) (h : NormalizedHighlight) (w : W) :
  outcome (run env (upsert_and_sleep cfg n h) w) = Ok n' ->
  exists dc,
    n' = n + dc
    /\ accounts (trace (run env (upsert_and_sleep cfg n h) w)) 1 dc.
Proof.
  destruct (upsert_counts h w) as (Hs & Hq & Hw & Hc & Htrue).
  unfold upsert_and_sleep. rewrite run_bind. unfold and_then.
  destruct (outcome (run env (upsertUrlWithTags cfg h) w)) as [b|e];
    cbn [outcome trace]; [|discriminate].
  rewrite run_bind, run_await. unfold and_then. cbn [outcome world trace].
  destruct (fst (env unit (Api.sleep 150) _)) as [[]|e]; [|discriminate].
  cbn [run outcome trace]. intros [= <-].
  exists (if b then 1 else 0). split; [destruct b; lia|].
  rewrite app_nil_r. unfold accounts. rewrite !count_app.
  change (count is_sleep [Api.call (Api.sleep 150)]) with 1.
  change (count is_create [Api.call (Api.sleep 150)]) with 0.
  change (count is_write [Api.call (Api.sleep 150)]) with 0.
  change (count is_query [Api.call (Api.sleep 150)]) with 0.
  destruct b; [specialize (Htrue eq_refl)|]; repeat split; lia.
Qed.

(** The inner loop. *)
Lemma for_of_accounts (hs : list NormalizedHighlight) : forall (n n' : nat) (w : W),
  outcome (run env (for_of_async hs (upsert_and_sleep cfg) n) w) = Ok n' ->
  exists dc,
    n' = n + dc
    /\ accounts (trace (run env (for_of_async hs (upsert_and_sleep cfg) n) w))
         (List.length hs) dc.
Proof.
  induction hs as [|h hs IH]; intros n n' w; cbn [for_of_async].
  - cbn. intros [= <-]. exists 0. split; [lia|]. repeat split; cbn; lia.
  - rewrite run_bind. unfold and_then.
    destruct (outcome (run env (upsert_and_sleep cfg n h) w)) as [n1|e] eqn:H1;
      cbn [outcome trace]; [|discriminate].
    intros H2.
    destruct (upsert_and_sleep_accounts n n1 h w H1) as (dc1 & -> & Ha1).
    destruct (IH _ _ _ H2) as (dc2 & -> & Ha2).
    exists (dc1 + dc2). split; [lia|].
    change (List.length (h :: hs)) with (1 + List.length hs).
    now apply accounts_app.
Qed.

(** One turn of [while (true)]. *)
Lemma main_body_accounts (st : Loop) (r : Loop + Loop) (w : W) :
  outcome (run env (main_body cfg st) w) = Ok r ->
  exists df dc,
    totalFetched (loop_state r) = totalFetched st + df
    /\ totalCreated (loop_state r) = totalCreated st + dc
    /\ accounts (trace (run env (main_body cfg st) w)) df dc.
Proof.
  unfold main_body. rewrite run_bind, run_fetch. unfold and_then.
  cbn [outcome world trace].
  destruct (fst (env _ (paginator_request cfg (cursor st)) w)) as [resp|e];
    [|discriminate].
  unfold get. destruct (Js.nullish (Api.data resp)); [discriminate|].
  rewrite run_bind, run_lift. unfold and_then. cbn [outcome world trace].
  destruct (normalizeHighlights (Js.member (Api.data resp) "results")) as [hs|e];
    rewrite run_bind, run_lift; unfold and_then; cbn [outcome world trace];
    [|discriminate].
  rewrite run_bind. unfold and_then.
  destruct (outcome (run env (for_of_async hs (upsert_and_sleep cfg) (totalCreated st)) _))
    as [n'|e] eqn:Hloop; cbn [outcome world trace]; [|discriminate].
  destruct (for_of_accounts hs _ _ _ Hloop) as (dc & -> & Hacc).
  rewrite run_bind, run_lift. unfold and_then. cbn [outcome world trace app].
  intros Hr. exists (List.length hs), dc.
  assert (Hstate : totalFetched (loop_state r) = totalFetched st + List.length hs
                   /\ totalCreated (loop_state r) = totalCreated st + dc).
  { destruct (negb (Js.Boolean (Js.member (Api.data resp) "nextPageCursor")));
      cbn in Hr; injection Hr as <-; now split. }
  destruct Hstate as [Hf Hc]. split; [exact Hf|]. split; [exact Hc|].
  assert (Hrest : forall rest : list Api.Call,
            accounts (Api.call (paginator_request cfg (cursor st)) :: rest)
              (List.length hs) dc
            <-> accounts rest (List.length hs) dc).
  { intros rest. unfold accounts, count. cbn. reflexivity. }
  apply Hrest.
  destruct (negb (Js.Boolean (Js.member (Api.data resp) "nextPageCursor")));
    cbn [run trace]; now rewrite app_nil_r.
Qed.

(** The loop. *)
Lemma while_true_accounts (fuel : nat) : forall (st st' : Loop) (w : W),
  outcome (run env (while_true cfg fuel st) w) = Ok (Some st') ->
  exists df dc,
    totalFetched st' = totalFetched st + df
    /\ totalCreated st' = totalCreated st + dc
    /\ accounts (trace (run env (while_true cfg fuel st) w)) df dc.
Proof.
  induction fuel as [|fuel IH]; intros st st' w; cbn [while_true].
  - discriminate.
  - rewrite run_bind. unfold and_then.
    destruct (outcome (run env (main_body cfg st) w)) as [r|e] eqn:Hbody;
      cbn [outcome trace]; [|discriminate].
    destruct (main_body_accounts st r w Hbody) as (df & dc & Hf & Hc & Hacc).
    destruct r as [st1|st1]; cbn [loop_state] in Hf, Hc.
    + intros Hrest. destruct (IH _ _ _ Hrest) as (df' & dc' & Hf' & Hc' & Hacc').
      exists (df + df'), (dc + dc'). repeat split; try lia.
      all: pose proof (accounts_app _ _ _ _ _ _ Hacc Hacc') as H; apply H.
    + cbn. intros [= <-]. exists df, dc. rewrite app_nil_r. auto.
Qed.

End Counters.

(** X15.  Whatever the services answer, when [main] returns its two
    counters, the run has slept 150 ms exactly once per highlight
    counted as fetched, has queried the Matcher at most once per
    highlight, has written at most once per query, and has counted as
    created no more pages than it has sent creations. *)
Theorem main_counters (W : Type) (env : Env W) (cfg : Config) (fuel : nat) (w : W)
  (fetched created : nat) :
  outcome (run env (main cfg fuel) w) = Ok (Some (fetched, created)) ->
  count is_sleep (trace (run env (main cfg fuel) w)) = fetched
  /\ created <= count is_create (trace (run env (main cfg fuel) w))
  /\ count is_create (trace (run env (main cfg fuel) w))
     <= count is_write (trace (run env (main cfg fuel) w))
  /\ count is_write (trace (run env (main cfg fuel) w))
     <= count is_query (trace (run env (main cfg fuel) w))
  /\ count is_query (trace (run env (main cfg fuel) w)) <= fetched.
Proof.
  unfold main. rewrite run_bind. unfold and_then.
  destruct (outcome (run env (while_true cfg fuel _) w)) as [[st'|]|e] eqn:Hloop;
    cbn [outcome trace run]; try discriminate.
  intros [= <- <-]. rewrite app_nil_r.
  destruct (while_true_accounts env cfg fuel _ _ _ Hloop) as (df & dc & Hf & Hc & Hacc).
  cbn in Hf, Hc. subst df dc. exact Hacc.
Qed.

Lemma main_counters_witness :
  count is_sleep
    (trace (run services (main Scenario.cfg 2)
              {| readwise := [ Scenario.export_page [Scenario.book_a [JStr "t1"];
                                                     Scenario.book_a []] (JStr "c1");
                               Scenario.export_page [Scenario.book_a [JStr "t2"]] JNull ];
                 notion := Scenario.empty_db |})) = 3
  /\ 1 <= count is_create
            (trace (run services (main Scenario.cfg 2)
                      {| readwise := [ Scenario.export_page [Scenario.book_a [JStr "t1"];
                                                             Scenario.book_a []] (JStr "c1");
                                       Scenario.export_page [Scenario.book_a [JStr "t2"]]
                                         JNull ];
                         notion := Scenario.empty_db |}))
  /\ count is_create
       (trace (run services (main Scenario.cfg 2)
                 {| readwise := [ Scenario.export_page [Scenario.book_a [JStr "t1"];
                                                        Scenario.book_a []] (JStr "c1");
                                  Scenario.export_page [Scenario.book_a [JStr "t2"]] JNull ];
                    notion := Scenario.empty_db |}))
     <= count is_write
          (trace (run services (main Scenario.cfg 2)
                    {| readwise := [ Scenario.export_page [Scenario.book_a [JStr "t1"];
                                                           Scenario.book_a []] (JStr "c1");
                                     Scenario.export_page [Scenario.book_a [JStr "t2"]]
                                       JNull ];
                       notion := Scenario.empty_db |}))
  /\ count is_write
       (trace (run services (main Scenario.cfg 2)
                 {| readwise := [ Scenario.export_page [Scenario.book_a [JStr "t1"];
                                                        Scenario.book_a []] (JStr "c1");
                                  Scenario.export_page [Scenario.book_a [JStr "t2"]] JNull ];
                    notion := Scenario.empty_db |}))
     <= count is_query
          (trace (run services (main Scenario.cfg 2)
                    {| readwise := [ Scenario.export_page [Scenario.book_a [JStr "t1"];
                                                           Scenario.book_a []] (JStr "c1");
                                     Scenario.export_page [Scenario.book_a [JStr "t2"]]
                                       JNull ];
                       notion := Scenario.empty_db |}))
  /\ count is_query
       (trace (run services (main Scenario.cfg 2)
                 {| readwise := [ Scenario.export_page [Scenario.book_a [JStr "t1"];
                                                        Scenario.book_a []] (JStr "c1");
                                  Scenario.export_page [Scenario.book_a [JStr "t2"]] JNull ];
                    notion := Scenario.empty_db |}))
     <= 3.
Proof.
  apply (main_counters World services Scenario.cfg 2
           {| readwise := [ Scenario.export_page [Scenario.book_a [JStr "t1"];
                                                  Scenario.book_a []] (JStr "c1");
                            Scenario.export_page [Scenario.book_a [JStr "t2"]] JNull ];
              notion := Scenario.empty_db |} 3 1).
  reflexivity.
Defined.

(** The run of the witness: three highlights, of which one has no tag
    and is skipped after its sleep; two queries, one creation, one
    update. *)
Example main_counters_demo :
  map (fun p => count p
                  (trace (run services (main Scenario.cfg 2)
                            {| readwise := [ Scenario.export_page
                                               [Scenario.book_a [JStr "t1"];
                                                Scenario.book_a []] (JStr "c1");
                                             Scenario.export_page
                                               [Scenario.book_a [JStr "t2"]] JNull ];
                               notion := Scenario.empty_db |})))
    [is_fetch; is_sleep; is_query; is_write; is_create]
  = [2; 3; 2; 2; 1].
Proof. reflexivity. Qed.

(** X16.  When the first request to Readwise is rejected, [main] throws
    the rejection at once: this request is the only one of the run, and
    nothing is asked of the destination. *)
Theorem main_fetch_rejected (W : Type) (env : Env W) (cfg : Config) (fuel : nat)
  (w : W) (e : Exn) :
  fst (env _ (paginator_request cfg JNull) w) = Err e ->
  outcome (run env (main cfg (S fuel)) w) = Err e
  /\ trace (run env (main cfg (S fuel)) w) = [Api.call (paginator_request cfg JNull)].
Proof.
  intros Hrej.
  assert (Hbody : run env (main_body cfg
                             {| cursor := JNull; totalFetched := 0; totalCreated := 0 |}) w
                  = {| outcome := Err e;
                       world := snd (env _ (paginator_request cfg JNull) w);
                       trace := [Api.call (paginator_request cfg JNull)] |}).
  { unfold main_body. rewrite run_bind, run_fetch. unfold and_then.
    cbn [outcome world trace cursor]. now rewrite Hrej. }
  unfold main. cbn [while_true]. rewrite !run_bind, Hbody. now unfold and_then.
Qed.

Lemma main_fetch_rejected_witness :
  outcome (run offline (main Scenario.cfg 1) tt) = Err (Rejected (JStr "offline"))
  /\ trace (run offline (main Scenario.cfg 1) tt) = [Scenario.get_request []].
Proof.
  apply (main_fetch_rejected unit offline Scenario.cfg 0 tt). reflexivity.
Defined.

Section Growth.

Variable cfg : Config.

Implicit Types (h : NormalizedHighlight) (w : World).

Lemma update_pages_length (page_id : string) (request : Api.Properties)
  (l l' : list Api.Page) :
  Notion.update_pages page_id request l = Some l' -> List.length l' = List.length l.
Proof.
  revert l'. induction l as [|p l IH]; intros l'; cbn; [discriminate|].
  destruct (Api.id p =? page_id); [now intros [= <-]|].
  destruct (Notion.update_pages page_id request l) as [l0|]; [|discriminate].
  intros [= <-]. cbn. now rewrite (IH l0).
Qed.

Lemma services_update_length (page_id : string) (request : Api.Properties) w :
  List.length (Notion.pages (notion (snd (services _ (Api.pages_update page_id request) w))))
  = List.length (Notion.pages (notion w)).
Proof.
  rewrite services_update. cbn [snd notion]. unfold Notion.update.
  destruct (Notion.update_pages page_id request (Notion.pages (notion w))) as [l'|] eqn:E;
    cbn [snd Notion.pages]; [|reflexivity].
  now apply update_pages_length in E.
Qed.

(** The database grows by the creations sent, and a run that returns
    says whether it has sent one. *)
Lemma services_upsert_growth h w :
  List.length (Notion.pages (notion (world (run services (upsertUrlWithTags cfg h) w))))
  = List.length (Notion.pages (notion w))
    + count is_create (trace (run services (upsertUrlWithTags cfg h) w))
  /\ forall b, outcome (run services (upsertUrlWithTags cfg h) w) = Ok b ->
               count is_create (trace (run services (upsertUrlWithTags cfg h) w))
               = if b then 1 else 0.
Proof.
  destruct (upsert_guard_cases cfg h) as [(e & _ & -> & _)|[[-> _]|[u Hguards]]].
  { cbn. split; [lia | discriminate]. }
  { cbn. split; [lia | now intros b [= <-]]. }
  rewrite (run_upsert services cfg h u w Hguards), services_findPageByUrl.
  unfold and_then. cbn [outcome world trace].
  destruct (titleText h u) as [t|e]; [|cbn; split; [lia | discriminate]].
  destruct (find (Notion.url_equals "URL" u) (Notion.pages (notion w)))
    as [existing|]; cbn zeta.
  - destruct (needUpdate _ _); cbn [world outcome trace];
      [|cbn; split; [lia | now intros b [= <-]]].
    rewrite services_update_length. cbn. split; [lia|].
    intros b. destruct (Notion.update _ _ (notion w)) as [[resp|e] db]; cbn;
      [now intros [= <-] | discriminate].
  - cbn. rewrite length_app. cbn. split; [lia | now intros b [= <-]].
Qed.

Lemma services_upsert_and_sleep_growth h (n : nat) w :
  List.length (Notion.pages (notion (world (run services (upsert_and_sleep cfg n h) w))))
  = List.length (Notion.pages (notion w))
    + count is_create (trace (run services (upsert_and_sleep cfg n h) w))
  /\ forall n', outcome (run services (upsert_and_sleep cfg n h) w) = Ok n' ->
                n' = n + count is_create (trace (run services (upsert_and_sleep cfg n h) w)).
Proof.
  destruct (services_upsert_growth h w) as [Hlen Hb].
  unfold upsert_and_sleep. rewrite run_bind. unfold and_then.
  destruct (outcome (run services (upsertUrlWithTags cfg h) w)) as [b|e];
    cbn [outcome world trace]; [|split; [exact Hlen | discriminate]].
  rewrite run_bind, run_await. unfold and_then.
  cbn [fst snd services outcome world trace run]. rewrite app_nil_r, count_app.
  change (count is_create [Api.call (Api.sleep 150)]) with 0.
  split; [lia|]. intros n' [= <-]. rewrite (Hb b eq_refl). destruct b; lia.
Qed.

Lemma services_for_of_growth (hs : list NormalizedHighlight) : forall (n : nat) w,
  List.length
    (Notion.pages
       (notion (world (run services (for_of_async hs (upsert_and_sleep cfg) n) w))))
  = List.length (Notion.pages (notion w))
    + count is_create (trace (run services (for_of_async hs (upsert_and_sleep cfg) n) w))
  /\ forall n',
       outcome (run services (for_of_async hs (upsert_and_sleep cfg) n) w) = Ok n' ->
       n' = n + count is_create
                  (trace (run services (for_of_async hs (upsert_and_sleep cfg) n) w)).
Proof.
  induction hs as [|h hs IH]; intros n w; cbn [for_of_async].
  - cbn. split; [lia | intros n' [= <-]; lia].
  - rewrite run_bind. unfold and_then.
    destruct (services_upsert_and_sleep_growth h n w) as [Hlen Hn].
    destruct (outcome (run services (upsert_and_sleep cfg n h) w)) as [n1|e];
      cbn [outcome world trace]; [|split; [exact Hlen | discriminate]].
    destruct (IH n1 (world (run services (upsert_and_sleep cfg n h) w))) as [Hlen' Hn'].
    rewrite count_app. split; [lia|].
    intros n' Hout. rewrite (Hn' n' Hout), (Hn n1 eq_refl). lia.
Qed.

Lemma services_fetch_notion (c : JsVal) w :
  notion (snd (services _ (paginator_request cfg c) w)) = notion w.
Proof. cbn. now destruct (readwise w). Qed.

Lemma services_main_body_growth (st : Loop) w :
  List.length (Notion.pages (notion (world (run services (main_body cfg st) w))))
  = List.length (Notion.pages (notion w))
    + count is_create (trace (run services (main_body cfg st) w))
  /\ forall r, outcome (run services (main_body cfg st) w) = Ok r ->
               totalCreated (loop_state r)
               = totalCreated st
                 + count is_create (trace (run services (main_body cfg st) w)).
Proof.
  remember (run services (main_body cfg st) w) as R eqn:HR.
  pose proof (services_fetch_notion (cursor st) w) as Hnotion.
  unfold main_body in HR. rewrite run_bind, run_fetch in HR.
  unfold and_then in HR. cbn [outcome world trace] in HR.
  destruct (fst (services _ (paginator_request cfg (cursor st)) w)) as [resp|e];
    [|subst R; cbn [outcome world trace]; rewrite Hnotion; cbn; split; [lia | discriminate]].
  rewrite run_bind, run_lift in HR. unfold and_then in HR.
  cbn [outcome world trace] in HR.
  unfold get in HR. destruct (Js.nullish (Api.data resp));
    [subst R; cbn [outcome world trace]; rewrite Hnotion; cbn; split; [lia | discriminate]|].
  cbn [outcome world trace] in HR.
  destruct (normalizeHighlights (Js.member (Api.data resp) "results")) as [hs|e];
    rewrite run_bind, run_lift in HR; unfold and_then in HR;
    cbn [outcome world trace] in HR;
    [|subst R; cbn [outcome world trace]; rewrite Hnotion; cbn; split; [lia | discriminate]].
  rewrite run_bind in HR. unfold and_then in HR.
  destruct (services_for_of_growth hs (totalCreated st)
              (snd (services _ (paginator_request cfg (cursor st)) w))) as [Hlen Hn].
  rewrite Hnotion in Hlen.
  destruct (outcome (run services (for_of_async hs (upsert_and_sleep cfg) (totalCreated st))
                       _)) as [n'|e];
    cbn [outcome world trace] in HR.
  2:{ subst R. cbn [outcome world trace app]. rewrite Hlen.
      split; [reflexivity | discriminate]. }
  rewrite run_bind, run_lift in HR. unfold and_then in HR.
  cbn [outcome world trace app] in HR. subst R.
  specialize (Hn n' eq_refl).
  destruct (negb (Js.Boolean (Js.member (Api.data resp) "nextPageCursor")));
    cbn [run outcome world trace]; rewrite app_nil_r;
    (split; [exact Hlen | intros r [= <-]; exact Hn]).
Qed.

Lemma services_while_true_growth (fuel : nat) : forall (st : Loop) w,
  List.length (Notion.pages (notion (world (run services (while_true cfg fuel st) w))))
  = List.length (Notion.pages (notion w))
    + count is_create (trace (run services (while_true cfg fuel st) w))
  /\ forall st', outcome (run services (while_true cfg fuel st) w) = Ok (Some st') ->
                 totalCreated st'
                 = totalCreated st
                   + count is_create (trace (run services (while_true cfg fuel st) w)).
Proof.
  induction fuel as [|fuel IH]; intros st w; cbn [while_true].
  - cbn. split; [lia | discriminate].
  - rewrite run_bind. unfold and_then.
    destruct (services_main_body_growth st w) as [Hlen Hc].
    destruct (outcome (run services (main_body cfg st) w)) as [[st1|st1]|e];
      cbn [outcome world trace].
    + destruct (IH st1 (world (run services (main_body cfg st) w))) as [Hlen' Hc'].
      specialize (Hc _ eq_refl). cbn [loop_state] in Hc.
      rewrite count_app. split; [lia|].
      intros st' Hout. rewrite (Hc' st' Hout). lia.
    + specialize (Hc _ eq_refl). cbn [loop_state run outcome world trace] in *.
      rewrite app_nil_r. split; [exact Hlen | now intros st' [= <-]].
    + split; [exact Hlen | discriminate].
Qed.

End Growth.

(** X17.  Against the database, however the run ends, the records are
    as many more as [main] has sent creations; and when [main] returns,
    its counter of created pages is this number: every page counted has
    been added to the database, and every page added has been
    counted. *)
Theorem main_created_is_growth (cfg : Config) (fuel : nat) (w : World) :
  List.length (Notion.pages (notion (world (run services (main cfg fuel) w))))
  = List.length (Notion.pages (notion w))
    + count is_create (trace (run services (main cfg fuel) w))
  /\ forall fetched created,
       outcome (run services (main cfg fuel) w) = Ok (Some (fetched, created)) ->
       created = count is_create (trace (run services (main cfg fuel) w))
       /\ List.length (Notion.pages (notion (world (run services (main cfg fuel) w))))
          = List.length (Notion.pages (notion w)) + created.
Proof.
  destruct (services_while_true_growth cfg fuel
              {| cursor := JNull; totalFetched := 0; totalCreated := 0 |} w)
    as [Hlen Hc].
  unfold main. rewrite run_bind. unfold and_then.
  destruct (outcome (run services (while_true cfg fuel _) w)) as [[st'|]|e];
    cbn [outcome world trace run]; rewrite ?app_nil_r;
    (split; [exact Hlen|]); try discriminate.
  intros fetched created [= <- <-]. rewrite (Hc st' eq_refl). cbn. split; lia.
Qed.

(** A run that returns: three highlights fetched over two pages, one
    record created, and the database one record longer. *)
Example main_growth_demo :
  let w := {| readwise := [ Scenario.export_page
                              [Scenario.book_a [JStr "t1"]; Scenario.book_a []]
                              (JStr "c1");
                            Scenario.export_page [Scenario.book_a [JStr "t2"]] JNull ];
              notion := Scenario.empty_db |} in
  outcome (run services (main Scenario.cfg 2) w) = Ok (Some (3, 1))
  /\ List.length (Notion.pages (notion (world (run services (main Scenario.cfg 2) w))))
     = 1.
Proof. split; reflexivity. Qed.
